(** * go-micro: call-execution core, shallow embedding

    The embedding follows the Go sources package by package:

    - [backoff], [client]  : client/backoff.go (exponentialBackoff)
    - [proto]              : codec/proto/marshaler.go (Marshaler)
    - [stream]             : util/stream (stream, request)
    - [server]             : server event wrapping a transport message
    - [http]               : api/handler/http (httpHandler)
    - [stream_view]        : util/stream, the request view's header
    - [json]               : codec/json (Marshaler)
    - [registry], [web]    : web (service: genSrv, register, deregister,
                             Handle, HandleFunc)
    - [nethttp], [api_handler] : api/handler/api (apiHandler)
    - [kubernetes]         : runtime/kubernetes/logs.go (klog)
    - [api]                : api (NewOptions and its options)
    - [docker]             : runtime/local/build/docker (Builder)

    Conventions.  A Go [error] result is an [option]: [None] is [nil].
    A Go multiple return is a pair.  A pointer that may be [nil] is an
    [option]; dereferencing [nil] panics, which a fallible function shows
    by returning [None].  A Go [map[string]string] is a [gmap string
    string]; indexing a missing key gives the zero value, the empty string.
    A [[]byte] is a [list byte], with [nil] the empty list.  Collaborators
    that live outside the embedded files (the underlying duplex stream, the
    protobuf library, the router, the selector) are Section variables or
    type-class interfaces, so every theorem holds for all of them. *)

From Stdlib Require Import ZArith Lia Ascii.
From stdpp Require Import base option list gmap strings.

Local Open Scope Z_scope.

(* ===================================================================== *)
(** * Part I: the embedding                                               *)
(* ===================================================================== *)

(** ** util/stream: streams within streams *)

Module stream.

(** [type Stream interface { Context(); SendMsg(v); RecvMsg(v); Close() }].
    [St] is the state of the underlying duplex stream; every method
    threads it.  [RecvMsg] decodes into its argument, so it also returns
    the value as it stands after the call. *)
Class Stream (error value context St : Type) := {
  Context : St -> context;
  SendMsg : St -> value -> St * option error;
  RecvMsg : St -> value -> St * value * option error;
  Close   : St -> St * option error
}.

Section Session.
Context {error value context St : Type} `{!Stream error value context St}.
(** [client.Request], built by [client.DefaultClient.NewRequest]. *)
Context {client_Request : Type}.
Variable NewRequest : string -> string -> value -> client_Request.

(** [type request struct { client.Request; context context.Context }] *)
Record request := mk_request {
  Request_ : client_Request;
  context_ : context
}.

(** [type stream struct { Stream; err error; request *request; sync.RWMutex }]
    The lock only serialises accesses to [err]; in the sequential
    embedding each method is one atomic step. *)
Record stream := mk_stream {
  Stream_  : St;
  err      : option error;
  request_ : request
}.

(** [func (r *request) Read() ([]byte, error) { return nil, nil }] *)
Definition Read (r : request) : list Byte.byte * option error :=
  ([], None).

(** [func (s *stream) Request() server.Request { return s.request }] *)
Definition Request (s : stream) : request := request_ s.

(** [func (s *stream) Send(v interface{}) error]:
    [err := s.Stream.SendMsg(v); if err != nil { s.err = err }; return err] *)
Definition Send (s : stream) (v : value) : stream * option error :=
  let '(st, e) := SendMsg (Stream_ s) v in
  match e with
  | Some x => (mk_stream st (Some x) (request_ s), Some x)
  | None => (mk_stream st (err s) (request_ s), None)
  end.

(** [func (s *stream) Recv(v interface{}) error]:
    [err := s.Stream.RecvMsg(v); if err != nil { s.err = err }; return err] *)
Definition Recv (s : stream) (v : value) : stream * value * option error :=
  let '(st, v', e) := RecvMsg (Stream_ s) v in
  match e with
  | Some x => (mk_stream st (Some x) (request_ s), v', Some x)
  | None => (mk_stream st (err s) (request_ s), v', None)
  end.

(** [func (s *stream) Error() error { return s.err }] *)
Definition Error (s : stream) : option error := err s.

(** [func New(service, endpoint string, req interface{}, s Stream) server.Stream] *)
Definition New (service endpoint : string) (req : value) (s : St) : stream :=
  {| Stream_ := s;
     err := None;
     request_ := {| context_ := Context s;
                    Request_ := NewRequest service endpoint req |} |}.

(** A handler's use of a session: a sequence of [Send] and [Recv] calls.
    [run] performs them in order and collects what each call returned
    to its caller. *)
Inductive call :=
| CallSend (v : value)
| CallRecv (v : value).

Definition step (s : stream) (c : call) : stream * option error :=
  match c with
  | CallSend v => Send s v
  | CallRecv v => let '(s', _, e) := Recv s v in (s', e)
  end.

Fixpoint run (s : stream) (cs : list call) : stream * list (option error) :=
  match cs with
  | [] => (s, [])
  | c :: cs' =>
      let '(s1, e) := step s c in
      let '(s2, es) := run s1 cs' in
      (s2, e :: es)
  end.

(** What the underlying stream itself answers to a call. *)
Definition transport_step (st : St) (c : call) : St * option error :=
  match c with
  | CallSend v => SendMsg st v
  | CallRecv v => let '(st', _, e) := RecvMsg st v in (st', e)
  end.

(** The most recent failure among a list of results, [init] if none. *)
Definition last_failure (init : option error) (es : list (option error))
  : option error :=
  fold_left (fun acc e => match e with Some x => Some x | None => acc end)
            es init.

End Session.

Arguments request : clear implicits.
Arguments stream : clear implicits.
Arguments call : clear implicits.

End stream.

(** ** client/backoff.go *)

Module backoff.

Section Policy.
(** The two constants of the policy, as durations. *)
Variables base cap : Z.

(** Modelled from the spec: [util/backoff.Do], the function
    [exponentialBackoff] delegates to, is not among the sources.  The
    spec gives its shape: exponential growth with a fixed base and a
    cap, [duration = min(cap, base * 2^attemptIndex)]. *)
Definition Do (attempts : Z) : Z := Z.min cap (base * 2 ^ attempts).
End Policy.

End backoff.

Module client.

Section Backoff.
Context {error context Request : Type}.
Variables base cap : Z.

(** [type BackoffFunc func(ctx, req, attempts int) (time.Duration, error)] *)
Definition BackoffFunc : Type :=
  context -> Request -> Z -> Z * option error.

(** [func exponentialBackoff(ctx, req, attempts) (time.Duration, error) {
       return backoff.Do(attempts), nil }] *)
Definition exponentialBackoff : BackoffFunc :=
  fun ctx req attempts => (backoff.Do base cap attempts, None).
End Backoff.

End client.

(** ** codec/proto/marshaler.go *)

Module proto.

Section Marshaler.
(** [Message] stands for the values that implement [proto.Message],
    [Other] for every other dynamic type an [interface{}] can hold
    (the nil interface included). *)
Context {error Message Other : Type}.

(** [codec.ErrInvalidMessage], the codec package's sentinel error. *)
Variable ErrInvalidMessage : error.

(** The protobuf library: [proto.Marshal(pb) ([]byte, error)] and
    [proto.Unmarshal(data, pb) error], the latter filling [pb]. *)
Variable proto_Marshal : Message -> list Byte.byte * option error.
Variable proto_Unmarshal : list Byte.byte -> Message -> Message * option error.

(** An [interface{}] argument, split by the outcome of the type
    assertion [v.(proto.Message)]. *)
Inductive value :=
| PB (pb : Message)
| NotPB (o : Other).

(** [pb, ok := v.(proto.Message)] *)
Definition assert_Message (v : value) : option Message :=
  match v with
  | PB pb => Some pb
  | NotPB _ => None
  end.

(** [func (Marshaler) Marshal(v interface{}) ([]byte, error)] *)
Definition Marshal (v : value) : list Byte.byte * option error :=
  match assert_Message v with
  | None => ([], Some ErrInvalidMessage)
  | Some pb =>
      let '(buf, err) := proto_Marshal pb in
      match err with
      | Some e => ([], Some e)
      | None => (buf, None)
      end
  end.

(** [func (Marshaler) Unmarshal(data []byte, v interface{}) error]
    The first component is [v] after the call. *)
Definition Unmarshal (data : list Byte.byte) (v : value) : value * option error :=
  match assert_Message v with
  | None => (v, Some ErrInvalidMessage)
  | Some pb =>
      let '(pb', err) := proto_Unmarshal data pb in (PB pb', err)
  end.

(** [func (Marshaler) String() string { return "proto" }] *)
Definition String : string := "proto".

End Marshaler.

Arguments value : clear implicits.

End proto.

(** ** server: a transport message handled as a broker event *)

Module transport.
(** [transport.Message]: [Header map[string]string; Body []byte] *)
Record Message := mk_Message {
  Header : gmap string string;
  Body : list Byte.byte
}.
End transport.

Module broker.
(** [broker.Message]: [Header map[string]string; Body []byte] *)
Record Message := mk_Message {
  Header : gmap string string;
  Body : list Byte.byte
}.
End broker.

Module server.

Section Event.
Context {error : Type}.

(** [headers.Message], the well-known header key that carries the
    topic; the constant is declared in transport/headers. *)
Variable headers_Message : string.

(** [type event struct { err error; message *broker.Message }] *)
Record event := mk_event {
  err : option error;
  message : option broker.Message
}.

(** [func (e *event) Ack() error { return nil }]; the receiver is
    returned to show that it is left as it was. *)
Definition Ack (e : event) : event * option error := (e, None).

(** [func (e *event) Message() *broker.Message { return e.message }] *)
Definition Message (e : event) : option broker.Message := message e.

(** [func (e *event) Error() error { return e.err }] *)
Definition Error (e : event) : option error := err e.

(** [func (e *event) Topic() string {
       return e.message.Header[headers.Message] }]
    [None] is the panic of dereferencing a nil [message]. *)
Definition Topic (e : event) : option string :=
  match message e with
  | None => None
  | Some m => Some (default "" (broker.Header m !! headers_Message))
  end.

(** [func newEvent(msg transport.Message) *event]; the [err] field is
    left at its zero value. *)
Definition newEvent (msg : transport.Message) : event :=
  {| err := None;
     message := Some {| broker.Header := transport.Header msg;
                        broker.Body := transport.Body msg |} |}.

End Event.

Arguments event : clear implicits.

End server.

(** ** api/handler/http: the reverse-proxy handler *)

Module http.

(** [net/http] status codes used by the handler. *)
Definition StatusNotFound : Z := 404.
Definition StatusInternalServerError : Z := 500.

(** [registry.Node]; the handler reads its address. *)
Record Node := mk_Node {
  Id : string;
  Address : string
}.

Section Handler.
Context {error Request Service URL : Type}.

(** [router.Route]; [Versions] is the list of services found. *)
Record Route := mk_Route {
  Service_ : string;
  Versions : list Service
}.

(** [router.Router], of which the handler calls [Route(r)]. *)
Record Router := mk_Router {
  Route_ : Request -> Route + error
}.

(** [handler.Options]; [Router] may be nil. *)
Record Options := mk_Options {
  Router_ : option Router
}.

(** [type httpHandler struct { options handler.Options }] *)
Record httpHandler := mk_httpHandler {
  options : Options
}.

(** [errors.New]. *)
Variable errors_New : string -> error.

(** [selector.Random(services)] returns the closure [next]; calling it
    yields a node or an error.  The selector is a collaborator, so the
    outcome of [next()] is left open. *)
Definition Next : Type := unit -> Node + error.
Variable selector_Random : list Service -> Next.

(** [url.Parse]. *)
Variable url_Parse : string -> URL + error.

(** What [ServeHTTP] does to the response writer: it either writes a
    status header, or hands the request to
    [httputil.NewSingleHostReverseProxy(rp)]. *)
Inductive response :=
| WriteHeader (status : Z)
| ReverseProxy (rp : URL).

(** [func (h *httpHandler) getService(r *http.Request) (string, error)] *)
Definition getService (h : httpHandler) (r : Request) : string * option error :=
  match Router_ (options h) with
  | Some rt =>
      match Route_ rt r with
      | inr err => ("", Some err)
      | inl service =>
          let next := selector_Random (Versions service) in
          match next tt with
          | inr err => ("", None)
          | inl s => ("http://" +:+ Address s, None)
          end
      end
  | None => ("", Some (errors_New "no route found"))
  end.

(** [func (h *httpHandler) ServeHTTP(w http.ResponseWriter, r *http.Request)] *)
Definition ServeHTTP (h : httpHandler) (r : Request) : response :=
  let '(service, err) := getService h r in
  match err with
  | Some _ => WriteHeader StatusInternalServerError
  | None =>
      if (Z.of_nat (String.length service) =? 0)
      then WriteHeader StatusNotFound
      else
        match url_Parse service with
        | inr _ => WriteHeader StatusInternalServerError
        | inl rp => ReverseProxy rp
        end
  end.

(** [func (h *httpHandler) String() string { return "http" }] *)
Definition String (h : httpHandler) : string := "http".

End Handler.

Arguments Route : clear implicits.
Arguments Router : clear implicits.
Arguments Options : clear implicits.
Arguments httpHandler : clear implicits.
Arguments response : clear implicits.

End http.

(** ** util/stream, continued: the request view and the underlying stream *)

Module stream_view.

Section View.
Context {error value context St : Type} `{!stream.Stream error value context St}.
Context {client_Request metadata : Type}.

(** [metadata.FromContext(ctx) (Metadata, bool)]. *)
Variable metadata_FromContext : context -> metadata * bool.

(** [func (r *request) Header() map[string]string {
       md, _ := metadata.FromContext(r.context); return md }] *)
Definition Header (r : stream.request context client_Request) : metadata :=
  (metadata_FromContext (stream.context_ r)).1.


End View.

End stream_view.

(** ** codec/json: the JSON marshaler *)

Module json.

Section Marshaler.
Context {error Message Other : Type}.

(** [protojson.Marshal], [protojson.Unmarshal] for protobuf messages and
    [encoding/json]'s [json.Marshal], [json.Unmarshal], which take any
    [interface{}]. *)
Variable protojson_Marshal : Message -> list Byte.byte * option error.
Variable protojson_Unmarshal : list Byte.byte -> Message -> Message * option error.
Variable json_Marshal : proto.value Message Other -> list Byte.byte * option error.
Variable json_Unmarshal :
  list Byte.byte -> proto.value Message Other -> proto.value Message Other * option error.

(** [func (j Marshaler) Marshal(v interface{}) ([]byte, error)] *)
Definition Marshal (v : proto.value Message Other) : list Byte.byte * option error :=
  match proto.assert_Message v with
  | Some pb =>
      let '(buf, err) := protojson_Marshal pb in
      match err with
      | Some e => ([], Some e)
      | None => (buf, None)
      end
  | None => json_Marshal v
  end.

(** [func (j Marshaler) Unmarshal(d []byte, v interface{}) error]
    The first component is [v] after the call. *)
Definition Unmarshal (d : list Byte.byte) (v : proto.value Message Other)
  : proto.value Message Other * option error :=
  match proto.assert_Message v with
  | Some pb => let '(pb', err) := protojson_Unmarshal d pb in (proto.PB pb', err)
  | None => json_Unmarshal d v
  end.

(** [func (j Marshaler) String() string { return "json" }] *)
Definition String : string := "json".

End Marshaler.

End json.

(** ** registry: the records the web service registers *)

Module registry.

(** [registry.Endpoint]; only [Name] is ever set by the code embedded here. *)
Record Endpoint := mk_Endpoint {
  Endpoint_Name : string
}.

(** [registry.Node] *)
Record Node := mk_Node {
  Node_Id : string;
  Node_Address : string;
  Node_Metadata : gmap string string
}.

(** [registry.Service] *)
Record Service := mk_Service {
  Service_Name : string;
  Service_Version : string;
  Service_Metadata : gmap string string;
  Service_Endpoints : list Endpoint;
  Service_Nodes : list Node
}.

(** [srv.Endpoints = eps] *)
Definition set_Endpoints (srv : Service) (eps : list Endpoint) : Service :=
  {| Service_Name := Service_Name srv;
     Service_Version := Service_Version srv;
     Service_Metadata := Service_Metadata srv;
     Service_Endpoints := eps;
     Service_Nodes := Service_Nodes srv |}.

End registry.

(** ** web: the web service *)

Module web.

(** The logger levels the service uses. *)
Inductive level := InfoLevel | ErrorLevel | FatalLevel.

(** What the service logs: an error value as it is ([logger.Log(level,
    err)]), or the register-check message
    ["Server %s-%s register check error: %s"] with its three arguments. *)
Inductive log_record (error : Type) :=
| LogErr (e : error)
| LogRegisterCheck (name id : string) (e : error).
Arguments LogErr {error} e.
Arguments LogRegisterCheck {error} name id e.

(** Everything outside the service that its methods act on: the logger,
    the registries and the clock.  [W] is the state of that world; each
    operation threads it.  The logger returns to its caller. *)
Class World (error Registry W : Type) := {
  Log : level -> log_record error -> W -> W;
  Register : Registry -> registry.Service -> Z -> W -> W * option error;
  Deregister : Registry -> registry.Service -> W -> W * option error;
  Sleep : Z -> W -> W
}.

(** [strings.Count(s, ":")]: the number of colons in [s]. *)
Fixpoint strings_Count_colon (s : string) : nat :=
  match s with
  | EmptyString => 0%nat
  | String c s' =>
      ((if Ascii.eqb c ":"%char then 1 else 0) + strings_Count_colon s')%nat
  end.

Section Service.
Context {error Registry Ctx W Mux Handler HandlerFunc : Type}.
Context `{!World error Registry W}.

(** [net.SplitHostPort], [maddr.Extract], [net.JoinHostPort]. *)
Variable net_SplitHostPort : string -> string * string * option error.
Variable maddr_Extract : string -> string * option error.
Variable net_JoinHostPort : string -> string -> string.

(** [backoff.Do], as a duration. *)
Variable backoff_Do : Z -> Z.

(** [http.ServeMux]'s [Handle] and [HandleFunc]; [None] is a panic (the
    mux refuses an empty or an already registered pattern). *)
Variable mux_Handle : Mux -> string -> Handler -> option Mux.
Variable mux_HandleFunc : Mux -> string -> HandlerFunc -> option Mux.

(** The fields of [web.Options] that the methods below read.
    [Service_Registry] is [opts.Service.Client().Options().Registry]. *)
Record Options := mk_Options {
  Name : string;
  Version : string;
  Id : string;
  Address : string;
  Advertise : string;
  Metadata : gmap string string;
  Registry_ : option Registry;
  Service_Registry : Registry;
  RegisterTTL : Z;
  RegisterCheck : Ctx -> W -> W * option error;
  Context_ : Ctx
}.

(** [type service struct { mux; srv *registry.Service; exit; ex; opts;
    sync.RWMutex; running, static bool }].  The two channels serve the
    goroutines of [start], [stop] and [run] only and are left out. *)
Record service := mk_service {
  mux : Mux;
  srv : option registry.Service;
  opts : Options;
  running : bool;
  static : bool
}.

(** [if err != nil { logger.Log(log.FatalLevel, err) }] *)
Definition log_fatal (err : option error) (w : W) : W :=
  match err with
  | Some e => Log FatalLevel (LogErr e) w
  | None => w
  end.

(** [func (s *service) genSrv() *registry.Service] *)
Definition genSrv (s : service) (w : W) : registry.Service * W :=
  let '(host, port, w1) :=
    if (0 <? String.length (Address (opts s)))%nat
    then let '(h, p, err) := net_SplitHostPort (Address (opts s)) in
         (h, p, log_fatal err w)
    else ("", "", w) in
  let '(host, port, w2) :=
    if (0 <? String.length (Advertise (opts s)))%nat
    then let '(h, p, err) := net_SplitHostPort (Advertise (opts s)) in
         (h, p, log_fatal err w1)
    else (host, port, w1) in
  let '(addr, err) := maddr_Extract host in
  let w3 := log_fatal err w2 in
  let addr := if (0 <? strings_Count_colon addr)%nat
              then "[" +:+ addr +:+ "]" else addr in
  ({| registry.Service_Name := Name (opts s);
      registry.Service_Version := Version (opts s);
      registry.Service_Metadata := ∅;
      registry.Service_Endpoints := [];
      registry.Service_Nodes :=
        [ {| registry.Node_Id := Id (opts s);
             registry.Node_Address := net_JoinHostPort addr port;
             registry.Node_Metadata := Metadata (opts s) |} ] |},
   w3).

(** [r := s.opts.Service.Client().Options().Registry;
     if s.opts.Registry != nil { r = s.opts.Registry }] *)
Definition registry_of (s : service) : Registry :=
  match Registry_ (opts s) with
  | Some r => r
  | None => Service_Registry (opts s)
  end.

(** The retry loop of [register]:
    [for i := 0; i < 3; i++ {
       if err := r.Register(s.srv, ttl); err != nil {
         regErr = err; time.Sleep(backoff.Do(i + 1)); continue }
       regErr = nil; break }]
    with [n] the number of iterations left, so that [i = 3 - n]. *)
Fixpoint register_loop (n : nat) (i : Z) (r : Registry) (sv : registry.Service)
    (ttl : Z) (regErr : option error) (w : W) : W * option error :=
  match n with
  | O => (w, regErr)
  | S n' =>
      let '(w1, err) := Register r sv ttl w in
      match err with
      | Some e => register_loop n' (i + 1) r sv ttl (Some e) (Sleep (backoff_Do (i + 1)) w1)
      | None => (w1, None)
      end
  end.

(** [s.srv = srv] *)
Definition set_srv (s : service) (sv : registry.Service) : service :=
  {| mux := mux s; srv := Some sv; opts := opts s;
     running := running s; static := static s |}.

(** [func (s *service) register() error] *)
Definition register (s : service) (w : W) : service * W * option error :=
  match srv s with
  | None => (s, w, None)
  | Some old =>
      let r := registry_of s in
      let '(sv, w1) := genSrv s w in
      let sv := registry.set_Endpoints sv (registry.Service_Endpoints old) in
      let s' := set_srv s sv in
      let '(w2, err) := RegisterCheck (opts s') (Context_ (opts s')) w1 in
      match err with
      | Some e =>
          (s', Log ErrorLevel (LogRegisterCheck (Name (opts s')) (Id (opts s')) e) w2,
           Some e)
      | None =>
          let '(w3, regErr) := register_loop 3 0 r sv (RegisterTTL (opts s')) None w2 in
          (s', w3, regErr)
      end
  end.

(** [func (s *service) deregister() error] *)
Definition deregister (s : service) (w : W) : W * option error :=
  match srv s with
  | None => (w, None)
  | Some sv => Deregister (registry_of s) sv w
  end.

(** [for _, ep := range s.srv.Endpoints { if ep.Name == pattern { seen = true; break } }] *)
Definition seen (eps : list registry.Endpoint) (pattern : string) : bool :=
  existsb (fun ep => String.eqb (registry.Endpoint_Name ep) pattern) eps.

(** The part [Handle] and [HandleFunc] share: the endpoint is appended
    if it is unseen, and static serving is disabled for the pattern ["/"]. *)
Definition note_pattern (s : service) (sv : registry.Service) (pattern : string)
  : registry.Service * bool :=
  let eps := registry.Service_Endpoints sv in
  let sv' := if seen eps pattern then sv
             else registry.set_Endpoints sv (eps ++ [registry.mk_Endpoint pattern]) in
  (sv', if String.eqb pattern "/" then false else static s).

(** [func (s *service) Handle(pattern string, handler http.Handler)].
    [None] is a panic: [s.srv] is nil, or the mux refuses the pattern. *)
Definition Handle (s : service) (pattern : string) (handler : Handler)
  : option service :=
  match srv s with
  | None => None
  | Some sv =>
      let '(sv', static') := note_pattern s sv pattern in
      match mux_Handle (mux s) pattern handler with
      | None => None
      | Some m =>
          Some {| mux := m; srv := Some sv'; opts := opts s;
                  running := running s; static := static' |}
      end
  end.

(** [func (s *service) HandleFunc(pattern string, handler func(...))] *)
Definition HandleFunc (s : service) (pattern : string) (handler : HandlerFunc)
  : option service :=
  match srv s with
  | None => None
  | Some sv =>
      let '(sv', static') := note_pattern s sv pattern in
      match mux_HandleFunc (mux s) pattern handler with
      | None => None
      | Some m =>
          Some {| mux := m; srv := Some sv'; opts := opts s;
                  running := running s; static := static' |}
      end
  end.

(** [func (s *service) Options() Options { return s.opts }] *)
Definition Options_ (s : service) : Options := opts s.

End Service.

Arguments Options : clear implicits.
Arguments service : clear implicits.

End web.

(** ** net/http: headers and the response writer *)

Module nethttp.

Section Header.
(** [textproto.CanonicalMIMEHeaderKey], which [http.Header]'s methods
    apply to every key. *)
Variable canon : string -> string.

(** [func (h Header) Set(key, value string)] *)
Definition Header_Set (h : gmap string (list string)) (key value : string)
  : gmap string (list string) :=
  <[canon key := [value]]> h.

(** [func (h Header) Add(key, value string)] *)
Definition Header_Add (h : gmap string (list string)) (key value : string)
  : gmap string (list string) :=
  <[canon key := default [] (h !! canon key) ++ [value]]> h.

(** [func (h Header) Get(key string) string]: the first value, or [""]. *)
Definition Header_Get (h : gmap string (list string)) (key : string) : string :=
  match h !! canon key with
  | Some (v :: _) => v
  | _ => ""
  end.
End Header.

(** What a handler has done to its [http.ResponseWriter]: the header
    map, the status written if any, and the chunks written to the body. *)
Record ResponseWriter := mk_ResponseWriter {
  header : gmap string (list string);
  status : option Z;
  body : list string
}.

Definition with_header (w : ResponseWriter) (h : gmap string (list string))
  : ResponseWriter :=
  {| header := h; status := status w; body := body w |}.

(** [w.WriteHeader(code)]; only the first call counts. *)
Definition WriteHeader (w : ResponseWriter) (code : Z) : ResponseWriter :=
  match status w with
  | Some _ => w
  | None => {| header := header w; status := Some code; body := body w |}
  end.

(** [w.Write(data)] *)
Definition Write (w : ResponseWriter) (data : string) : ResponseWriter :=
  {| header := header w; status := status w; body := body w ++ [data] |}.

Definition StatusOK : Z := 200.
Definition StatusInternalServerError : Z := 500.

End nethttp.

(** ** api/handler/api: the http-rpc handler *)

Module api_handler.

(** [api.Pair] and [api.Response].  [Header] is a Go map ranged over by
    [ServeHTTP]; it is given here as the list of its pairs in the order
    the range visits them. *)
Record Pair := mk_Pair {
  Key : string;
  Values : list string
}.

Record Response := mk_Response {
  StatusCode : Z;
  Header : list Pair;
  Body : string
}.

(** [errors.Error] *)
Record Error := mk_Error {
  Id : string;
  Code : Z;
  Detail : string;
  Status : string
}.

(** [Handler = "api"] *)
Definition Handler : string := "api".

Section Handler.
Context {error Request Proto ClientRequest CallContext Service Strategy C : Type}.

Variable canon : string -> string.

(** [router.Route]; [Endpoint] is a pointer, of which [Name] is read. *)
Record Route := mk_Route {
  Service_ : string;
  Endpoint : option string;
  Versions : list Service
}.

(** [handler.Options]: [MaxRecvSize], [Router] (may be nil); the client
    is the state [C] that [Call] acts on. *)
Record Options := mk_Options {
  MaxRecvSize : Z;
  Router : option (Request -> Route + error)
}.

(** [type apiHandler struct { opts handler.Options }] *)
Record apiHandler := mk_apiHandler {
  opts : Options
}.

(** [handler.DefaultMaxRecvSize], [http.MaxBytesReader] put on the
    request body, [requestToProto], [err.Error()], the constructors and
    the printer of [errors.Error], [ctx.FromRequest] and [strategy]. *)
Variable DefaultMaxRecvSize : Z.
Variable MaxBytesReader : Request -> Z -> Request.
Variable requestToProto : Request -> Proto + error.
Variable error_string : error -> string.
Variable errors_InternalServerError : string -> string -> Error.
Variable errors_Parse : string -> Error.
Variable Error_string : Error -> string.
Variable ctx_FromRequest : Request -> CallContext.
Variable strategy : list Service -> Strategy.

(** The client: [c.NewRequest(service, endpoint, request)] and
    [c.Call(cx, req, rsp, client.WithSelectOption(so))], which fills the
    empty response it is given. *)
Variable NewRequest : string -> string -> Proto -> ClientRequest.
Variable Call : C -> CallContext -> ClientRequest -> Strategy -> C * Response * option error.

(** [w.Header().Set("Content-Type", "application/json")] *)
Definition set_json (w : nethttp.ResponseWriter) : nethttp.ResponseWriter :=
  nethttp.with_header w
    (nethttp.Header_Set canon (nethttp.header w) "Content-Type" "application/json").

(** The three early exits:
    [er := errors.InternalServerError("go.micro.api", msg);
     w.Header().Set("Content-Type", "application/json");
     w.WriteHeader(http.StatusInternalServerError);
     w.Write([]byte(er.Error()))] *)
Definition internal_error (w : nethttp.ResponseWriter) (msg : string)
  : nethttp.ResponseWriter :=
  let er := errors_InternalServerError "go.micro.api" msg in
  nethttp.Write
    (nethttp.WriteHeader (set_json w) nethttp.StatusInternalServerError)
    (Error_string er).

(** [for _, header := range rsp.GetHeader() {
      for _, val := range header.Values { w.Header().Add(header.Key, val) } }] *)
Definition add_headers (h : gmap string (list string)) (hs : list Pair)
  : gmap string (list string) :=
  fold_left
    (fun h header =>
       fold_left (fun h val => nethttp.Header_Add canon h (Key header) val) (Values header) h)
    hs h.

(** [func (a *apiHandler) ServeHTTP(w http.ResponseWriter, r *http.Request)].
    [None] is the panic of reading [service.Endpoint.Name] through a nil
    pointer. *)
Definition ServeHTTP (a : apiHandler) (w : nethttp.ResponseWriter) (r : Request) (c : C)
  : option (nethttp.ResponseWriter * C) :=
  let bsize := if 0 <? MaxRecvSize (opts a) then MaxRecvSize (opts a)
               else DefaultMaxRecvSize in
  let r := MaxBytesReader r bsize in
  match requestToProto r with
  | inr err => Some (internal_error w (error_string err), c)
  | inl request =>
      match Router (opts a) with
      | None => Some (internal_error w "no route found", c)
      | Some route =>
          match route r with
          | inr err => Some (internal_error w (error_string err), c)
          | inl service =>
              match Endpoint service with
              | None => None
              | Some endpoint =>
                  let req := NewRequest (Service_ service) endpoint request in
                  let cx := ctx_FromRequest r in
                  let so := strategy (Versions service) in
                  let '(c', rsp, err) := Call c cx req so in
                  match err with
                  | Some e =>
                      let w := set_json w in
                      let ce := errors_Parse (error_string e) in
                      let w := if Code ce =? 0
                               then nethttp.WriteHeader w nethttp.StatusInternalServerError
                               else nethttp.WriteHeader w (Code ce) in
                      Some (nethttp.Write w (Error_string ce), c')
                  | None =>
                      let code := if StatusCode rsp =? 0 then nethttp.StatusOK
                                  else StatusCode rsp in
                      let w := nethttp.with_header w
                                 (add_headers (nethttp.header w) (Header rsp)) in
                      let w := if (String.length
                                     (nethttp.Header_Get canon (nethttp.header w) "Content-Type")
                                   =? 0)%nat
                               then set_json w else w in
                      let w := nethttp.WriteHeader w code in
                      Some (nethttp.Write w (Body rsp), c')
                  end
              end
          end
      end
  end.

(** [func (a *apiHandler) String() string { return "api" }] *)
Definition String (a : apiHandler) : string := "api".

End Handler.

Arguments Route : clear implicits.
Arguments Options : clear implicits.
Arguments apiHandler : clear implicits.

End api_handler.

(** ** runtime/kubernetes/logs.go: reading pod logs *)

Module kubernetes.

(** [client.Pod], of which the name and the labels of the metadata are read. *)
Record Pod := mk_Pod {
  Metadata_Name : string;
  Metadata_Labels : gmap string string
}.

(** [r.Value] after [client.Get], by the outcome of the type assertion
    of [r.Value] to a pointer to [client.PodList]. *)
Inductive Value :=
| PodList (Items : list Pod)
| OtherValue.

(** [runtime.LogRecord]; only [Message] is set. *)
Record LogRecord := mk_LogRecord {
  Message : string
}.

(** [runtime.LogsOptions] *)
Record LogsOptions := mk_LogsOptions {
  Count : Z;
  Stream : bool;
  Namespace : string
}.

(** [client.Client], with [K] the state of the cluster and of the
    connections to it.  [Get] is called with labels and a namespace for
    the kind ["pod"]; [Log] with the resource name and kind, the log
    parameters and the namespace.  [Close] closes a log body. *)
Class Client (error Body K : Type) := {
  Get : K -> gmap string string -> string -> K * Value * option error;
  Log : K -> string -> string -> gmap string string -> string -> K * (Body + error);
  Close : K -> Body -> K
}.

Section Klog.
Context {error Body K : Type} `{HC : !Client error Body K}.

(** [client.Format], [strconv.Itoa], and the lines a [bufio.Scanner]
    finds in a log body. *)
Variable client_Format : string -> string.
Variable strconv_Itoa : Z -> string.
Variable scan : Body -> list string.

(** [type klog struct { options; client; serviceName }]; the client is
    the state [K]. *)
Record klog := mk_klog {
  options : LogsOptions;
  serviceName : string
}.

(** [func (k *klog) getMatchingPods() ([]string, error)].  [None] is the
    panic of ranging over the items of a nil pod list, after the failed
    type assertion has been logged. *)
Definition getMatchingPods (k : klog) (st : K) : option (K * list string * option error) :=
  let l : gmap string string := <["name" := client_Format (serviceName k)]> ∅ in
  let '(st', value, err) := Get st l (Namespace (options k)) in
  match err with
  | Some e => Some (st', [], Some e)
  | None =>
      match value with
      | OtherValue => None
      | PodList items =>
          Some (st',
                map Metadata_Name
                  (List.filter
                     (fun p => String.eqb (default "" (Metadata_Labels p !! "name"))
                                 (client_Format (serviceName k)))
                     items),
                None)
      end
  end.

(** The log parameters [Read] builds for each pod:
    [if k.options.Count != 0 { logParams["tailLines"] = strconv.Itoa(int(k.options.Count)) }
     if k.options.Stream { logParams["follow"] = "true" }] *)
Definition logParams (o : LogsOptions) : gmap string string :=
  let p : gmap string string :=
    if Count o =? 0 then ∅ else <["tailLines" := strconv_Itoa (Count o)]> ∅ in
  if Stream o then <["follow" := "true"]> p else p.

(** The loop of [Read] over the pods.  [opened] holds the bodies whose
    [Close] is deferred, the latest first. *)
Fixpoint read_pods (k : klog) (pods : list string) (st : K) (opened : list Body)
    (records : list LogRecord) : K * list Body * list LogRecord * option error :=
  match pods with
  | [] => (st, opened, records, None)
  | pod :: rest =>
      let '(st1, res) := Log st pod "pod" (logParams (options k)) (Namespace (options k)) in
      match res with
      | inr e => (st1, opened, [], Some e)
      | inl logs =>
          read_pods k rest st1 (logs :: opened)
            (records ++ map mk_LogRecord (scan logs))
      end
  end.

(** The deferred [logs.Close()] calls, run when [Read] returns. *)
Definition close_all (opened : list Body) (st : K) : K :=
  fold_left Close opened st.

(** [func (k *klog) Read() ([]runtime.LogRecord, error)] *)
Definition Read (k : klog) (st : K) : option (K * list LogRecord * option error) :=
  match getMatchingPods k st with
  | None => None
  | Some (st1, pods, Some e) => Some (st1, [], Some e)
  | Some (st1, pods, None) =>
      let '(st2, opened, records, err) := read_pods k pods st1 [] [] in
      Some (close_all opened st2, records, err)
  end.

End Klog.

End kubernetes.

(** ** api: the options of the api server *)

Module api.

Section Options.
Context {error Router Client Registry : Type}.

(** [client.NewClient(client.Registry(r))] and
    [registry2.NewRouter(router.WithRegistry(r))]. *)
Variable client_NewClient : Registry -> Client.
Variable registry_NewRouter : Registry -> Router.

(** [api.Options]; router and client are interfaces and may be nil. *)
Record Options := mk_Options {
  Address : string;
  Router_ : option Router;
  Client_ : option Client
}.

(** [type Option func(o *Options) error], as a function from the options
    before to the options after and the error. *)
Definition Option : Type := Options -> Options * option error.

(** [func NewOptions(opts ...Option) Options]; the errors the options
    return are dropped. *)
Definition NewOptions (opts : list Option) : Options :=
  fold_left (fun options o => (o options).1) opts
    {| Address := ":8080"; Router_ := None; Client_ := None |}.

(** [func WithAddress(addr string) Option] *)
Definition WithAddress (addr : string) : Option :=
  fun o => ({| Address := addr; Router_ := Router_ o; Client_ := Client_ o |}, None).

(** [func WithRouter(r router.Router) Option] *)
Definition WithRouter (r : option Router) : Option :=
  fun o => ({| Address := Address o; Router_ := r; Client_ := Client_ o |}, None).

(** [func WithRegistry(r registry.Registry) Option] *)
Definition WithRegistry (r : Registry) : Option :=
  fun o => ({| Address := Address o;
               Router_ := Some (registry_NewRouter r);
               Client_ := Some (client_NewClient r) |}, None).

End Options.

Arguments Options : clear implicits.
Arguments Option : clear implicits.

End api.

(** ** runtime/local/build/docker: building docker images *)

Module docker.

(** [source.Repository] and [build.Source]; the repository is a pointer. *)
Record Repository := mk_Repository {
  Repository_Name : string;
  Repository_Path : string
}.

Record Source := mk_Source {
  Language : string;
  Repository_ : option Repository
}.

(** [build.Package] *)
Record Package := mk_Package {
  Name : string;
  Path : string;
  Type_ : string;
  Source_ : Source
}.

(** [tar.Header], as far as [Build] fills it. *)
Record tar_Header := mk_tar_Header {
  Header_Name : string;
  Header_Size : Z
}.

(** [docker.BuildImageOptions], as far as [Build] fills it;
    [OutputStream] is [io.Discard]. *)
Record BuildImageOptions := mk_BuildImageOptions {
  Options_Name : string;
  Dockerfile : string;
  InputStream : list Byte.byte;
  RmTmpContainer : bool;
  SuppressOutput : bool
}.

Section Builder.
Context {error File Tar D : Type}.

(** [filepath.Join], [os.Open], [io.ReadAll]; the tar writer over a new
    buffer with its [WriteHeader] and [Write] and the bytes of the
    buffer; the docker client, of state [D], with [BuildImage] and
    [RemoveImage]. *)
Variable filepath_Join : list string -> string.
Variable os_Open : string -> File + error.
Variable io_ReadAll : File -> list Byte.byte * option error.
Variable tar_NewWriter : Tar.
Variable tar_WriteHeader : Tar -> tar_Header -> Tar * option error.
Variable tar_Write : Tar -> list Byte.byte -> Tar * option error.
Variable buf_Bytes : Tar -> list Byte.byte.
Variable BuildImage : D -> BuildImageOptions -> D * option error.
Variable RemoveImage : D -> string -> D * option error.

(** [func (d *Builder) Build(s *build.Source) (pkg *build.Package, err error)].
    [None] is the panic on a nil repository.  The deferred [tw.Close()]
    and [f.Close()] run after the result is fixed. *)
Definition Build (d : D) (s : Source) : option (D * option Package * option error) :=
  match Repository_ s with
  | None => None
  | Some repo =>
      let image := filepath_Join [Repository_Path repo; Repository_Name repo] in
      let tw := tar_NewWriter in
      let dockerFile := "Dockerfile" in
      match os_Open (filepath_Join [Repository_Path repo; Repository_Name repo; dockerFile]) with
      | inr err => Some (d, None, Some err)
      | inl f =>
          let '(by_, err) := io_ReadAll f in
          match err with
          | Some e => Some (d, None, Some e)
          | None =>
              let tarHeader := {| Header_Name := dockerFile;
                                  Header_Size := Z.of_nat (length by_) |} in
              let '(tw, err) := tar_WriteHeader tw tarHeader in
              match err with
              | Some e => Some (d, None, Some e)
              | None =>
                  let '(tw, err) := tar_Write tw by_ in
                  match err with
                  | Some e => Some (d, None, Some e)
                  | None =>
                      let tr := buf_Bytes tw in
                      let '(d', err) :=
                        BuildImage d {| Options_Name := image;
                                        Dockerfile := dockerFile;
                                        InputStream := tr;
                                        RmTmpContainer := true;
                                        SuppressOutput := true |} in
                      match err with
                      | Some e => Some (d', None, Some e)
                      | None =>
                          Some (d',
                                Some {| Name := image; Path := image;
                                        Type_ := "docker"; Source_ := s |},
                                None)
                      end
                  end
              end
          end
      end
  end.

(** [func (d *Builder) Clean(b *build.Package) error] *)
Definition Clean (d : D) (b : Package) : D * option error :=
  let image := filepath_Join [Path b; Name b] in
  RemoveImage d image.

End Builder.

End docker.

(* ===================================================================== *)
(** * Part II: concrete collaborators                                     *)
(* ===================================================================== *)

(** Small, executable instances of the collaborators, on which the
    embedded code can be run. *)

Module scripted.

(** A duplex stream that answers its calls from a script: the state is
    the list of outcomes still to come, one per [SendMsg] or [RecvMsg];
    once the script is used up every call succeeds. *)
Definition pop (st : list (option string)) : list (option string) * option string :=
  match st with
  | [] => ([], None)
  | e :: st' => (st', e)
  end.

#[global] Instance scripted_Stream
  : stream.Stream string nat (gmap string string) (list (option string)) := {|
  stream.Context _ := ∅;
  stream.SendMsg st _ := pop st;
  stream.RecvMsg st v := let '(st', e) := pop st in (st', v, e);
  stream.Close st := (st, None)
|}.

(** [client.DefaultClient.NewRequest], keeping service and endpoint. *)
Definition NewRequest (service endpoint : string) (req : nat) : string * string :=
  (service, endpoint).

(** A session over a scripted stream. *)
Definition session (script : list (option string))
  : stream.stream string (gmap string string) (list (option string)) (string * string) :=
  stream.New NewRequest "greeter" "Greeter.Stream" 0%nat script.

(** A protobuf library over byte strings: messages are their own
    encoding, and messages longer than four bytes are refused. *)
Definition ErrInvalidMessage : string := "invalid message".

Definition proto_Marshal (pb : list Byte.byte) : list Byte.byte * option string :=
  if (length pb <=? 4)%nat then (pb, None) else ([], Some "proto: message too large").

Definition proto_Unmarshal (data pb : list Byte.byte) : list Byte.byte * option string :=
  if (length data <=? 4)%nat then (data, None) else (pb, Some "proto: cannot parse").

(** The key go-micro uses for [headers.Message]. *)
Definition headers_Message : string := "Micro-Topic".

Definition msg_with_topic : transport.Message :=
  {| transport.Header := {[ "Micro-Topic" := "orders"; "Content-Type" := "application/json" ]};
     transport.Body := [Byte.x7b; Byte.x7d] |}.

Definition msg_without_topic : transport.Message :=
  {| transport.Header := {[ "Content-Type" := "application/json" ]};
     transport.Body := [] |}.

(** A selector over services given as their node lists: [next] fails
    when there is no node at all and otherwise yields the first one. *)
Definition selector_Random (services : list (list http.Node)) : @http.Next string :=
  fun _ =>
    match concat services with
    | [] => inr "none available"
    | n :: _ => inl n
    end.

(** A router that knows the host [orders], registered without nodes. *)
Definition router : http.Router string string (list http.Node) :=
  {| http.Route_ := fun host =>
       if String.eqb host "orders"
       then inl {| http.Service_ := "orders"; http.Versions := [ [] ] |}
       else inr "route not found" |}.

Definition handler : http.httpHandler string string (list http.Node) :=
  {| http.options := {| http.Router_ := Some router |} |}.

Definition url_Parse (s : string) : string + string := inl s.

End scripted.

(** Further collaborators, for the code beyond the stream, the event and
    the proxy. *)

Module fixtures.

(** [encoding/json] over numbers: [n] is written as [n] zero bytes and
    read back as the length of the input. *)
Definition json_Marshal (v : proto.value (list Byte.byte) nat)
  : list Byte.byte * option string :=
  match v with
  | proto.NotPB n => (replicate n Byte.x00, None)
  | proto.PB _ => ([], Some "json: unsupported type")
  end.

Definition json_Unmarshal (d : list Byte.byte) (v : proto.value (list Byte.byte) nat)
  : proto.value (list Byte.byte) nat * option string :=
  match v with
  | proto.NotPB _ => (proto.NotPB (length d), None)
  | proto.PB _ => (v, Some "json: unsupported type")
  end.

End fixtures.

(** A world that records what the web service does to it.  The state
    holds the answers the registries will give, one per [Register] or
    [Deregister] call (success once they are used up), and the list of
    everything done so far, oldest first. *)

Module traced.

Inductive event :=
| EvLog (l : web.level) (rec : web.log_record string)
| EvRegister (r : string) (sv : registry.Service) (ttl : Z) (res : option string)
| EvDeregister (r : string) (sv : registry.Service) (res : option string)
| EvSleep (d : Z).

Record world := mk_world {
  answers : list (option string);
  trace : list event
}.

Definition record_event (ev : event) (w : world) : world :=
  {| answers := answers w; trace := trace w ++ [ev] |}.

Definition answer (mk : option string -> event) (w : world) : world * option string :=
  match answers w with
  | [] => ({| answers := []; trace := trace w ++ [mk None] |}, None)
  | a :: rest => ({| answers := rest; trace := trace w ++ [mk a] |}, a)
  end.

#[global] Instance traced_World : web.World string string world := {|
  web.Log l rec := record_event (EvLog l rec);
  web.Register r sv ttl := answer (EvRegister r sv ttl);
  web.Deregister r sv := answer (EvDeregister r sv);
  web.Sleep d := record_event (EvSleep d)
|}.

(** Network helpers over a handful of addresses. *)
Definition net_SplitHostPort (a : string) : string * string * option string :=
  if String.eqb a ":8080" then ("", "8080", None)
  else if String.eqb a "10.0.0.7:9090" then ("10.0.0.7", "9090", None)
  else ("", "", Some "missing port in address").

Definition maddr_Extract (host : string) : string * option string :=
  if String.eqb host "" then ("192.168.1.5", None) else (host, None).

Definition net_JoinHostPort (host port : string) : string :=
  host +:+ ":" +:+ port.

(** One hundred milliseconds per attempt. *)
Definition backoff_Do (attempts : Z) : Z := 100 * attempts.

(** A mux that keeps the patterns it was given and refuses a pattern it
    already has. *)
Definition mux_Handle (m : list string) (pattern : string) (h : nat)
  : option (list string) :=
  if bool_decide (pattern ∈ m) then None else Some (m ++ [pattern]).

Definition options (address advertise : string)
  : web.Options string string unit world :=
  {| web.Name := "greeter";
     web.Version := "latest";
     web.Id := "greeter-1";
     web.Address := address;
     web.Advertise := advertise;
     web.Metadata := ∅;
     web.Registry_ := None;
     web.Service_Registry := "mdns";
     web.RegisterTTL := 30;
     web.RegisterCheck := fun _ w => (w, None);
     web.Context_ := tt |}.

(** A service as [newService] leaves it: not running, static serving
    on, [srv] generated; here with one endpoint already handled. *)
Definition service0 : web.service string string unit world (list string) :=
  {| web.mux := ["/health"];
     web.srv := Some {| registry.Service_Name := "greeter";
                        registry.Service_Version := "latest";
                        registry.Service_Metadata := ∅;
                        registry.Service_Endpoints := [registry.mk_Endpoint "/health"];
                        registry.Service_Nodes := [] |};
     web.opts := options ":8080" "";
     web.running := false;
     web.static := true |}.

(** The service after [Handle("/", h)]. *)
Definition service_root : web.service string string unit world (list string) :=
  {| web.mux := ["/health"; "/"];
     web.srv := Some {| registry.Service_Name := "greeter";
                        registry.Service_Version := "latest";
                        registry.Service_Metadata := ∅;
                        registry.Service_Endpoints :=
                          [registry.mk_Endpoint "/health"; registry.mk_Endpoint "/"];
                        registry.Service_Nodes := [] |};
     web.opts := options ":8080" "";
     web.running := false;
     web.static := false |}.

(** The web service's methods over these collaborators. *)
Definition genSrv := web.genSrv (Ctx := unit) (Mux := list string)
  net_SplitHostPort maddr_Extract net_JoinHostPort.

Definition register := web.register (Ctx := unit) (Mux := list string)
  net_SplitHostPort maddr_Extract net_JoinHostPort backoff_Do.

(** A registry that fails once and then works. *)
Definition flaky : world :=
  {| answers := [Some "registry unavailable"; None]; trace := [] |}.

(** What [genSrv] makes of [service0]: one node at the extracted address. *)
Definition srv0 : registry.Service :=
  {| registry.Service_Name := "greeter";
     registry.Service_Version := "latest";
     registry.Service_Metadata := ∅;
     registry.Service_Endpoints := [registry.mk_Endpoint "/health"];
     registry.Service_Nodes :=
       [ {| registry.Node_Id := "greeter-1";
            registry.Node_Address := "192.168.1.5:8080";
            registry.Node_Metadata := ∅ |} ] |}.

End traced.

(** Collaborators of the api handler: requests are paths, the client
    answers by service name. *)

Module api_fixtures.

Definition canon (key : string) : string := key.

Definition requestToProto (r : string) : string + string :=
  if String.eqb r "" then inr "empty request" else inl r.

Definition errors_InternalServerError (id detail : string) : api_handler.Error :=
  {| api_handler.Id := id; api_handler.Code := 500;
     api_handler.Detail := detail; api_handler.Status := "Internal Server Error" |}.

Definition errors_Parse (s : string) : api_handler.Error :=
  if String.eqb s "not found"
  then {| api_handler.Id := "go.micro.client"; api_handler.Code := 404;
          api_handler.Detail := s; api_handler.Status := "Not Found" |}
  else {| api_handler.Id := ""; api_handler.Code := 0;
          api_handler.Detail := s; api_handler.Status := "" |}.

Definition Error_string (e : api_handler.Error) : string := api_handler.Detail e.

(** The client counts its calls.  [greeter] answers with a body and a
    header and leaves the status at zero; every other service is not
    found. *)
Definition Call (c : nat) (cx : string) (req : string * string * string) (so : unit)
  : nat * api_handler.Response * option string :=
  if String.eqb req.1.1 "greeter"
  then (S c,
        {| api_handler.StatusCode := 0;
           api_handler.Header := [ {| api_handler.Key := "X-Request-Id";
                                      api_handler.Values := ["42"] |} ];
           api_handler.Body := "{}" |},
        None)
  else (S c, {| api_handler.StatusCode := 0; api_handler.Header := [];
                api_handler.Body := "" |},
        Some "not found").

Definition route (r : string) : api_handler.Route unit + string :=
  if String.eqb r "/greeter/hello"
  then inl {| api_handler.Service_ := "greeter";
              api_handler.Endpoint := Some "Greeter.Hello";
              api_handler.Versions := [] |}
  else if String.eqb r "/orders/list"
  then inl {| api_handler.Service_ := "orders";
              api_handler.Endpoint := Some "Orders.List";
              api_handler.Versions := [] |}
  else inr "route not found".

Definition handler : api_handler.apiHandler string string unit :=
  {| api_handler.opts := {| api_handler.MaxRecvSize := 0;
                            api_handler.Router := Some route |} |}.

Definition ServeHTTP :=
  api_handler.ServeHTTP (Service := unit) canon 4194304 (fun r _ => r) requestToProto (fun e => e)
    errors_InternalServerError errors_Parse Error_string (fun r => r) (fun _ => tt)
    (fun service endpoint request => (service, endpoint, request)) Call.

(** A response writer nothing has been done to. *)
Definition fresh : nethttp.ResponseWriter :=
  {| nethttp.header := ∅; nethttp.status := None; nethttp.body := [] |}.

End api_fixtures.

(** A cluster that records the calls of its client.  The state is the
    list of calls made so far, oldest first; [Get] answers [value] and
    [get_err], and the log of a pod depends on the pod only. *)

Module kube.

Inductive event :=
| EvGet (labels : gmap string string) (namespace : string)
| EvLog (name kind : string) (params : gmap string string) (namespace : string)
| EvClose (body : list string).

Definition client (value : kubernetes.Value) (get_err : option string)
    (logs : string -> list string + string)
  : kubernetes.Client string (list string) (list event) :=
  {| kubernetes.Get st labels namespace := (st ++ [EvGet labels namespace], value, get_err);
     kubernetes.Log st name kind params namespace :=
       (st ++ [EvLog name kind params namespace], logs name);
     kubernetes.Close st body := st ++ [EvClose body] |}.

Definition pods : list kubernetes.Pod :=
  [ kubernetes.mk_Pod "greeter-1" {[ "name" := "greeter" ]};
    kubernetes.mk_Pod "db-0" {[ "name" := "db" ]};
    kubernetes.mk_Pod "bare" ∅;
    kubernetes.mk_Pod "greeter-2" {[ "name" := "greeter"; "tier" := "web" ]} ].

Definition logs (name : string) : list string + string :=
  if String.eqb name "greeter-1" then inl ["starting"; "listening"]
  else if String.eqb name "greeter-2" then inl ["starting"]
  else inr "pod has no logs".

(** The second greeter pod cannot be reached. *)
Definition logs_broken (name : string) : list string + string :=
  if String.eqb name "greeter-1" then inl ["starting"; "listening"]
  else inr "connection refused".

Definition greeter : @kubernetes.klog :=
  {| kubernetes.options := {| kubernetes.Count := 10; kubernetes.Stream := false;
                              kubernetes.Namespace := "default" |};
     kubernetes.serviceName := "greeter" |}.

Definition Itoa (n : Z) : string := if n =? 10 then "10" else "0".

End kube.

(** A file system with one Dockerfile, a tar writer that keeps the
    bytes written, and a docker daemon that lists its images. *)

Module docker_fixtures.

Definition filepath_Join (parts : list string) : string :=
  match parts with
  | [] => ""
  | p :: ps => fold_left (fun acc q => acc +:+ "/" +:+ q) ps p
  end.

Definition os_Open (path : string) : list Byte.byte + string :=
  if String.eqb path "services/greeter/Dockerfile"
  then inl [Byte.x46; Byte.x52; Byte.x4f; Byte.x4d]
  else inr "no such file or directory".

Definition io_ReadAll (f : list Byte.byte) : list Byte.byte * option string := (f, None).

Definition tar_WriteHeader (tw : list Byte.byte) (h : docker.tar_Header)
  : list Byte.byte * option string := (tw ++ [Byte.x00], None).

Definition tar_Write (tw data : list Byte.byte) : list Byte.byte * option string :=
  (tw ++ data, None).

Definition BuildImage (d : list string) (o : docker.BuildImageOptions)
  : list string * option string := (docker.Options_Name o :: d, None).

Definition RemoveImage (d : list string) (image : string) : list string * option string :=
  if bool_decide (image ∈ d)
  then (List.filter (fun i => negb (String.eqb i image)) d, None)
  else (d, Some "no such image").

Definition greeter : docker.Source :=
  {| docker.Language := "go";
     docker.Repository_ := Some {| docker.Repository_Name := "greeter";
                                   docker.Repository_Path := "services" |} |}.

Definition Build :=
  docker.Build filepath_Join os_Open io_ReadAll [] tar_WriteHeader tar_Write
    (fun tw => tw) BuildImage.

Definition Clean := docker.Clean filepath_Join RemoveImage.

End docker_fixtures.

(* ===================================================================== *)
(** * Part III: properties                                                *)
(* ===================================================================== *)

(** ** The stream session and its error latch *)

Module stream_facts.
Import stream.

Section Facts.
Context {error value context St : Type} `{!Stream error value context St}.
Context {client_Request : Type}.

Abbreviation session := (stream.stream error context St client_Request).

Implicit Types (s : session) (c : call value) (cs : list (call value)).

(** Unfolding equations for [Send] and [Recv], by outcome of the
    underlying call. *)
Lemma Send_fail s v st x :
  SendMsg (Stream_ s) v = (st, Some x) ->
  Send s v = (mk_stream st (Some x) (request_ s), Some x).
Proof. unfold Send. by intros ->. Qed.

Lemma Send_ok s v st :
  SendMsg (Stream_ s) v = (st, None) ->
  Send s v = (mk_stream st (err s) (request_ s), None).
Proof. unfold Send. by intros ->. Qed.

Lemma Recv_fail s v st v' x :
  RecvMsg (Stream_ s) v = (st, v', Some x) ->
  Recv s v = (mk_stream st (Some x) (request_ s), v', Some x).
Proof. unfold Recv. by intros ->. Qed.

Lemma Recv_ok s v st v' :
  RecvMsg (Stream_ s) v = (st, v', None) ->
  Recv s v = (mk_stream st (err s) (request_ s), v', None).
Proof. unfold Recv. by intros ->. Qed.

(** A call returns to its caller what the underlying stream answered. *)
Lemma step_result s c :
  (step s c).2 = (transport_step (Stream_ s) c).2.
Proof.
  destruct c as [v|v]; simpl.
  - unfold Send. destruct (SendMsg (Stream_ s) v) as [st [x|]]; done.
  - unfold Recv. destruct (RecvMsg (Stream_ s) v) as [[st v'] [x|]]; done.
Qed.

(** After one call the latch holds the call's error if it failed and
    is as before if it succeeded. *)
Lemma step_Error s c :
  Error (step s c).1 =
  match (step s c).2 with Some x => Some x | None => Error s end.
Proof.
  destruct c as [v|v]; simpl.
  - unfold Send. destruct (SendMsg (Stream_ s) v) as [st [x|]]; done.
  - unfold Recv. destruct (RecvMsg (Stream_ s) v) as [[st v'] [x|]]; done.
Qed.

Lemma run_cons s c cs :
  run s (c :: cs) =
  ((run (step s c).1 cs).1, (step s c).2 :: (run (step s c).1 cs).2).
Proof.
  simpl. destruct (step s c) as [s1 e]. simpl.
  by destruct (run s1 cs) as [s2 es].
Qed.

Lemma run_Error s cs :
  Error (run s cs).1 = last_failure (Error s) (run s cs).2.
Proof.
  revert s. induction cs as [|c cs IH]; intros s; [done|].
  rewrite run_cons. cbn [fst snd]. rewrite IH, step_Error.
  unfold last_failure. simpl. by destruct ((step s c).2).
Qed.

Lemma last_failure_is_Some init (es : list (option error)) :
  is_Some init -> is_Some (last_failure init es).
Proof.
  revert init. unfold last_failure.
  induction es as [|[x|] es IH]; intros init Hi; simpl; [done| |by apply IH].
  apply IH. by eexists.
Qed.

Lemma last_failure_all_ok init (es : list (option error)) :
  Forall (eq None) es -> last_failure init es = init.
Proof.
  unfold last_failure. revert init.
  induction es as [|e es IH]; intros init Hall; [done|].
  inversion Hall as [|? ? <- Hrest]; subst. simpl. by apply IH.
Qed.

(** C1 (as amended).  The latch is never cleared, but it does not keep
    the first error: after any sequence of [Send] and [Recv] calls,
    [Error()] returns the error of the most recent call that failed,
    or what it returned before if none failed.  In particular a call
    that fails on a session whose latch is already set replaces the
    latched error with its own. *)
Theorem latch_holds_most_recent_error s cs :
  Error (run s cs).1 = last_failure (Error s) (run s cs).2
  /\ (is_Some (Error s) -> is_Some (Error (run s cs).1))
  /\ (forall c e2, (step s c).2 = Some e2 -> Error (step s c).1 = Some e2).
Proof.
  split; [apply run_Error|]. split.
  - intros Hs. rewrite run_Error. by apply last_failure_is_Some.
  - intros c e2 Hc. by rewrite step_Error, Hc.
Qed.

(** C5.  Every error of the underlying stream is returned by the
    [Send] or [Recv] that met it; and when a [Recv] fails with [E],
    [Error()] returns [E] after that call and keeps returning [E]
    after later calls that succeed, a later successful [Send] among
    them: success never clears or replaces the latched error. *)
Theorem transport_error_propagated_and_kept s v E :
  (forall s' c, (step s' c).2 = (transport_step (Stream_ s') c).2)
  /\ ((Recv s v).2 = (RecvMsg (Stream_ s) v).2)
  /\ ((Recv s v).2 = Some E ->
      Error (Recv s v).1.1 = Some E
      /\ (forall w, (Send (Recv s v).1.1 w).2 = None ->
            Error (Send (Recv s v).1.1 w).1 = Some E)
      /\ (forall cs, Forall (eq None) (run (Recv s v).1.1 cs).2 ->
            Error (run (Recv s v).1.1 cs).1 = Some E)).
Proof.
  split; [apply step_result|]. split.
  { unfold Recv. destruct (RecvMsg (Stream_ s) v) as [[st v'] [x|]]; done. }
  intros HE.
  assert (Hlatched : Error (Recv s v).1.1 = Some E).
  { pose proof (step_Error s (CallRecv v)) as H1. simpl in H1.
    destruct (Recv s v) as [[s1 v1] e1]. simpl in *. by subst. }
  split; [done|]. split.
  - intros w Hw. pose proof (step_Error (Recv s v).1.1 (CallSend w)) as H1.
    simpl in H1. by rewrite H1, Hw.
  - intros cs Hall. by rewrite run_Error, last_failure_all_ok.
Qed.

(** C9.  Reading the request view of a session gives no bytes and no
    error, whatever the state of the session. *)
Theorem request_Read_empty s :
  Read (error := error) (Request s) = ([], None).
Proof. reflexivity. Qed.

End Facts.

(** C1 (as stated) fails.  On a session whose underlying stream fails a
    [Send] with "broken pipe" and then a [Recv] with "EOF", the first
    error is latched by the [Send], and the failing [Recv] overwrites
    it: [Error()] returns "EOF", not the first latched error. *)
Lemma first_error_is_overwritten :
  let s0 := scripted.session [Some "broken pipe"; Some "EOF"] in
  let s1 := (Send s0 1%nat).1 in
  let s2 := (Recv s1 0%nat).1.1 in
  Error s0 = None
  /\ (Send s0 1%nat).2 = Some "broken pipe"
  /\ Error s1 = Some "broken pipe"
  /\ (Recv s1 0%nat).2 = Some "EOF"
  /\ Error s2 = Some "EOF"
  /\ Error s2 <> Some "broken pipe".
Proof. vm_compute. repeat split; try reflexivity. discriminate. Qed.

(** The amended C1 at work on the same session: the latch stays set
    and holds the later error. *)
Lemma latch_holds_most_recent_error_witness :
  let s1 := (Send (scripted.session [Some "broken pipe"; Some "EOF"]) 1%nat).1 in
  is_Some (Error s1)
  /\ is_Some (Error (run s1 [CallRecv 0%nat]).1)
  /\ (step s1 (CallRecv 0%nat)).2 = Some "EOF"
  /\ Error (step s1 (CallRecv 0%nat)).1 = Some "EOF".
Proof.
  intros s1.
  destruct (latch_holds_most_recent_error s1 [CallRecv 0%nat]) as (_ & Hset & Hlast).
  split; [by eexists|].
  split; [apply Hset; by eexists|].
  split; [reflexivity|].
  apply Hlast. reflexivity.
Defined.

(** C5 on a session whose first [Recv] fails with "EOF" and whose next
    [Send] succeeds. *)
Lemma transport_error_propagated_and_kept_witness :
  let s := scripted.session [Some "EOF"; None] in
  (Recv s 0%nat).2 = Some "EOF"
  /\ Error (Recv s 0%nat).1.1 = Some "EOF"
  /\ (Send (Recv s 0%nat).1.1 7%nat).2 = None
  /\ Error (Send (Recv s 0%nat).1.1 7%nat).1 = Some "EOF".
Proof.
  intros s.
  destruct (transport_error_propagated_and_kept s 0%nat "EOF") as (_ & _ & Hkept).
  destruct (Hkept eq_refl) as (Hlatched & Hsend & _).
  split; [reflexivity|].
  split; [exact Hlatched|].
  split; [reflexivity|].
  apply Hsend. reflexivity.
Defined.

End stream_facts.

(** ** The transport-to-event adapter *)

Module server_facts.
Import server.

Section Facts.
Context {error : Type}.
Variable headers_Message : string.

Implicit Types (msg : transport.Message) (e : event error).

(** C4.  Wrapping a transport message and reading it back loses
    nothing: the event carries a message whose header mapping is the
    input's, key for key and value for value, and whose body is the
    input's body. *)
Theorem newEvent_lossless msg :
  exists m : broker.Message,
    Message (newEvent (error := error) msg) = Some m
    /\ broker.Header m = transport.Header msg
    /\ dom (broker.Header m) = dom (transport.Header msg)
    /\ (forall k : string, broker.Header m !! k = transport.Header msg !! k)
    /\ broker.Body m = transport.Body msg.
Proof. eexists. split; [reflexivity|]. simpl. done. Qed.

(** C6.  [Ack] returns no error and leaves the event as it was, for
    every event and so for every event the adapter produced. *)
Theorem Ack_noop :
  (forall e, Ack e = (e, None))
  /\ (forall msg, Ack (newEvent (error := error) msg) = (newEvent msg, None)).
Proof. split; reflexivity. Qed.

(** C7.  The topic of a wrapped message is the value stored under the
    well-known header key; when the key is absent the topic is the
    empty string, and [Topic] does not fail. *)
Theorem Topic_of_newEvent msg :
  (forall t, transport.Header msg !! headers_Message = Some t ->
     Topic headers_Message (newEvent (error := error) msg) = Some t)
  /\ (transport.Header msg !! headers_Message = None ->
     Topic headers_Message (newEvent (error := error) msg) = Some "").
Proof.
  unfold Topic, newEvent. simpl. split.
  - intros t Ht. by rewrite Ht.
  - intros Hnone. by rewrite Hnone.
Qed.

(** C8.  Constructing an event is total: every transport message,
    empty header and empty body included, yields an event whose
    [Error()] is nil and whose message and topic can be read. *)
Theorem newEvent_total msg :
  Error (newEvent (error := error) msg) = None
  /\ is_Some (Message (newEvent (error := error) msg))
  /\ is_Some (Topic headers_Message (newEvent (error := error) msg))
  /\ Error (newEvent (error := error) (transport.mk_Message ∅ [])) = None.
Proof. unfold Topic, newEvent. simpl. repeat split; by eexists. Qed.

End Facts.

(** C7 on a message that carries the topic key and on one that does not. *)
Lemma Topic_of_newEvent_witness :
  Topic (error := string) scripted.headers_Message (newEvent scripted.msg_with_topic)
    = Some "orders"
  /\ Topic (error := string) scripted.headers_Message (newEvent scripted.msg_without_topic)
    = Some "".
Proof.
  split.
  - apply (proj1 (Topic_of_newEvent scripted.headers_Message scripted.msg_with_topic)).
    vm_compute. reflexivity.
  - apply (proj2 (Topic_of_newEvent scripted.headers_Message scripted.msg_without_topic)).
    vm_compute. reflexivity.
Defined.

End server_facts.

(** ** The reverse-proxy handler *)

Module http_facts.
Import http.

Section Facts.
Context {error Request Service URL : Type}.
Variable errors_New : string -> error.
Variable selector_Random : list Service -> @Next error.
Variable url_Parse : string -> URL + error.

Implicit Types (h : httpHandler error Request Service) (r : Request).

(** [getService] by cases, one lemma per return statement. *)
Lemma getService_no_router h r :
  Router_ (options h) = None ->
  getService errors_New selector_Random h r
    = ("", Some (errors_New "no route found")).
Proof. unfold getService. by intros ->. Qed.

Lemma getService_route_error h r rt e :
  Router_ (options h) = Some rt ->
  Route_ rt r = inr e ->
  getService errors_New selector_Random h r = ("", Some e).
Proof. unfold getService. by intros -> ->. Qed.

Lemma getService_no_node h r rt route e :
  Router_ (options h) = Some rt ->
  Route_ rt r = inl route ->
  selector_Random (Versions route) tt = inr e ->
  getService errors_New selector_Random h r = ("", None).
Proof. unfold getService. by intros -> -> ->. Qed.

Lemma getService_node h r rt route n :
  Router_ (options h) = Some rt ->
  Route_ rt r = inl route ->
  selector_Random (Versions route) tt = inl n ->
  getService errors_New selector_Random h r
    = ("http://" +:+ Address n, None).
Proof. unfold getService. by intros -> -> ->. Qed.

(** C10.  When the router resolves a route and the selector yields no
    node, [getService] returns the empty service string with a nil
    error, whatever error the selector gave, and [ServeHTTP] answers
    404 Not Found, not 500. *)
Theorem no_node_is_not_found h r rt route e :
  Router_ (options h) = Some rt ->
  Route_ rt r = inl route ->
  selector_Random (Versions route) tt = inr e ->
  getService errors_New selector_Random h r = ("", None)
  /\ ServeHTTP errors_New selector_Random url_Parse h r
       = WriteHeader StatusNotFound
  /\ ServeHTTP errors_New selector_Random url_Parse h r
       <> WriteHeader StatusInternalServerError.
Proof.
  intros Hrt Hroute Hnext.
  pose proof (getService_no_node h r rt route e Hrt Hroute Hnext) as Hsvc.
  split; [exact Hsvc|].
  unfold ServeHTTP. rewrite Hsvc. simpl.
  split; [reflexivity|]. unfold StatusNotFound, StatusInternalServerError.
  intros Heq. inversion Heq.
Qed.

End Facts.

(** C10 on a router that knows [orders], registered without nodes. *)
Lemma no_node_is_not_found_witness :
  getService (fun s => s) scripted.selector_Random scripted.handler "orders"
    = ("", None)
  /\ ServeHTTP (fun s => s) scripted.selector_Random scripted.url_Parse
       scripted.handler "orders" = WriteHeader 404.
Proof.
  destruct (no_node_is_not_found (fun s : string => s) scripted.selector_Random
              scripted.url_Parse scripted.handler "orders" scripted.router
              {| Service_ := "orders"; Versions := [ [] ] |} "none available")
    as (Hsvc & Hnf & _); [reflexivity | reflexivity | reflexivity |].
  split; [exact Hsvc | exact Hnf].
Defined.

End http_facts.

(** ** The backoff policy *)

Module backoff_facts.

Section Facts.
Variables base cap : Z.

Lemma Do_nonneg i : 0 <= base -> 0 <= cap -> 0 <= backoff.Do base cap i.
Proof.
  intros Hb Hc. unfold backoff.Do.
  apply Z.min_glb; [exact Hc|].
  apply Z.mul_nonneg_nonneg; [exact Hb|]. apply Z.pow_nonneg. lia.
Qed.

Lemma Do_le_cap i : backoff.Do base cap i <= cap.
Proof. unfold backoff.Do. apply Z.le_min_l. Qed.

Lemma Do_mono i : 0 <= base -> 0 <= i ->
  backoff.Do base cap i <= backoff.Do base cap (i + 1).
Proof.
  intros Hb Hi. unfold backoff.Do.
  apply Z.min_le_compat_l.
  rewrite Z.pow_add_r by lia. change (2 ^ 1) with 2.
  assert (0 <= 2 ^ i) by (apply Z.pow_nonneg; lia). nia.
Qed.

(** C2.  With a non-negative base and cap, the backoff of every
    attempt index [i >= 0] is non-negative, does not decrease from
    one attempt to the next, never exceeds the cap, and is
    [min(cap, base * 2^i)]; the policy itself reports no error. *)
Theorem exponentialBackoff_bounds
    {error context Request : Type} (ctx : context) (req : Request) (i : Z) :
  0 <= base -> 0 <= cap -> 0 <= i ->
  let Backoff n := (client.exponentialBackoff (error := error) base cap ctx req n).1 in
  0 <= Backoff i
  /\ Backoff i <= Backoff (i + 1)
  /\ Backoff (i + 1) <= cap
  /\ Backoff i = Z.min cap (base * 2 ^ i)
  /\ (client.exponentialBackoff (error := error) base cap ctx req i).2 = None.
Proof.
  intros Hb Hc Hi. simpl.
  split; [by apply Do_nonneg|].
  split; [by apply Do_mono|].
  split; [apply Do_le_cap|].
  split; reflexivity.
Qed.

End Facts.

(** C2 with a base of 100ms and a cap of two minutes, in milliseconds:
    attempt 3 waits 800ms, attempt 4 waits 1600ms. *)
Lemma exponentialBackoff_bounds_witness :
  let Backoff n := (client.exponentialBackoff (error := string) 100 120000 tt tt n).1 in
  0 <= Backoff 3 /\ Backoff 3 <= Backoff 4 /\ Backoff 4 <= 120000
  /\ Backoff 3 = 800.
Proof.
  destruct (exponentialBackoff_bounds 100 120000 (error := string) tt tt 3)
    as (H0 & Hmono & Hcap & Hshape & _); [lia | lia | lia |].
  intros Backoff.
  split; [exact H0|]. split; [exact Hmono|]. split; [exact Hcap | exact Hshape].
Defined.

End backoff_facts.

(** ** The proto codec *)

Module proto_facts.
Import proto.

Section Facts.
Context {error Message Other : Type}.
Variable ErrInvalidMessage : error.
Variable proto_Marshal : Message -> list Byte.byte * option error.
Variable proto_Unmarshal : list Byte.byte -> Message -> Message * option error.

Implicit Types (v : value Message Other) (data : list Byte.byte).

(** A value that is not a protobuf message is refused with
    [ErrInvalidMessage], by both operations. *)
Lemma Marshal_not_message v :
  assert_Message v = None ->
  Marshal ErrInvalidMessage proto_Marshal v = ([], Some ErrInvalidMessage).
Proof. unfold Marshal. by intros ->. Qed.

Lemma Unmarshal_not_message data v :
  assert_Message v = None ->
  Unmarshal ErrInvalidMessage proto_Unmarshal data v = (v, Some ErrInvalidMessage).
Proof. unfold Unmarshal. by intros ->. Qed.

(** For a protobuf message the error is the protobuf library's own. *)
Lemma Marshal_message v pb :
  assert_Message v = Some pb ->
  (Marshal ErrInvalidMessage proto_Marshal v).2 = (proto_Marshal pb).2.
Proof.
  unfold Marshal. intros ->. by destruct (proto_Marshal pb) as [buf [e|]].
Qed.

Lemma Unmarshal_message data v pb :
  assert_Message v = Some pb ->
  (Unmarshal ErrInvalidMessage proto_Unmarshal data v).2
    = (proto_Unmarshal data pb).2.
Proof.
  unfold Unmarshal. intros ->. by destruct (proto_Unmarshal data pb).
Qed.

(** The protobuf library has errors of its own; it never hands out
    the codec package's sentinel. *)
Hypothesis proto_Marshal_own_errors :
  forall pb, (proto_Marshal pb).2 <> Some ErrInvalidMessage.
Hypothesis proto_Unmarshal_own_errors :
  forall data pb, (proto_Unmarshal data pb).2 <> Some ErrInvalidMessage.

(** C3.  [Marshal] and [Unmarshal] return [ErrInvalidMessage] exactly
    when the value is not a protobuf message; for a protobuf message
    that error is never returned. *)
Theorem InvalidMessage_iff_not_message v data :
  ((Marshal ErrInvalidMessage proto_Marshal v).2 = Some ErrInvalidMessage
     <-> assert_Message v = None)
  /\ ((Unmarshal ErrInvalidMessage proto_Unmarshal data v).2 = Some ErrInvalidMessage
     <-> assert_Message v = None)
  /\ (forall pb,
        (Marshal (Other := Other) ErrInvalidMessage proto_Marshal (PB pb)).2
          <> Some ErrInvalidMessage
        /\ (Unmarshal (Other := Other) ErrInvalidMessage proto_Unmarshal data (PB pb)).2
             <> Some ErrInvalidMessage).
Proof.
  split; [|split].
  - split.
    + destruct (assert_Message v) as [pb|] eqn:Hv; [|done].
      rewrite (Marshal_message v pb Hv). intros H.
      by destruct (proto_Marshal_own_errors pb).
    + intros Hv. by rewrite Marshal_not_message.
  - split.
    + destruct (assert_Message v) as [pb|] eqn:Hv; [|done].
      rewrite (Unmarshal_message data v pb Hv). intros H.
      by destruct (proto_Unmarshal_own_errors data pb).
    + intros Hv. by rewrite Unmarshal_not_message.
  - intros pb. split.
    + rewrite (Marshal_message (PB pb) pb eq_refl). apply proto_Marshal_own_errors.
    + rewrite (Unmarshal_message data (PB pb) pb eq_refl).
      apply proto_Unmarshal_own_errors.
Qed.

End Facts.

Lemma scripted_Marshal_own_errors (pb : list Byte.byte) :
  (scripted.proto_Marshal pb).2 <> Some scripted.ErrInvalidMessage.
Proof. unfold scripted.proto_Marshal. by destruct (length pb <=? 4)%nat. Defined.

Lemma scripted_Unmarshal_own_errors (data pb : list Byte.byte) :
  (scripted.proto_Unmarshal data pb).2 <> Some scripted.ErrInvalidMessage.
Proof. unfold scripted.proto_Unmarshal. by destruct (length data <=? 4)%nat. Defined.

(** C3 on the byte-string protobuf library: a number is refused, a
    message is not, even one the library cannot encode. *)
Lemma InvalidMessage_iff_not_message_witness :
  let Marshal := Marshal (Other := nat) scripted.ErrInvalidMessage scripted.proto_Marshal in
  (Marshal (NotPB 7%nat)).2 = Some scripted.ErrInvalidMessage
  /\ (Marshal (PB [Byte.x01; Byte.x02])).2 <> Some scripted.ErrInvalidMessage
  /\ (Marshal (PB [Byte.x01; Byte.x02; Byte.x03; Byte.x04; Byte.x05])).2
       <> Some scripted.ErrInvalidMessage.
Proof.
  intros M. subst M.
  pose proof (InvalidMessage_iff_not_message (Other := nat)
                scripted.ErrInvalidMessage scripted.proto_Marshal
                scripted.proto_Unmarshal
                scripted_Marshal_own_errors scripted_Unmarshal_own_errors) as H.
  split.
  - apply (proj1 (H (NotPB 7%nat) [])). reflexivity.
  - split.
    + apply (proj2 (proj2 (H (NotPB 7%nat) [])) [Byte.x01; Byte.x02]).
    + apply (proj2 (proj2 (H (NotPB 7%nat) []))
               [Byte.x01; Byte.x02; Byte.x03; Byte.x04; Byte.x05]).
Defined.

End proto_facts.

(** ** The session as a wrapper of the underlying stream *)

Module stream_view_facts.
Import stream stream_view.

Section Facts.
Context {error value context St : Type} `{!Stream error value context St}.
Context {client_Request metadata : Type}.
Variable NewRequest : string -> string -> value -> client_Request.
Variable metadata_FromContext : context -> metadata * bool.

Implicit Types (s : stream.stream error context St client_Request)
  (c : call value) (cs : list (call value)).



Lemma step_request s c : request_ (step s c).1 = request_ s.
Proof.
  destruct c as [v|v]; simpl.
  - unfold Send. destruct (SendMsg (Stream_ s) v) as [st [x|]]; done.
  - unfold Recv. destruct (RecvMsg (Stream_ s) v) as [[st v'] [x|]]; done.
Qed.

Lemma step_latch s c :
  Error (step s c).1 =
  match (step s c).2 with Some x => Some x | None => Error s end.
Proof.
  destruct c as [v|v]; simpl.
  - unfold Send. destruct (SendMsg (Stream_ s) v) as [st [x|]]; done.
  - unfold Recv. destruct (RecvMsg (Stream_ s) v) as [[st v'] [x|]]; done.
Qed.

Lemma run_step s c cs :
  run s (c :: cs) =
  ((run (step s c).1 cs).1, (step s c).2 :: (run (step s c).1 cs).2).
Proof.
  simpl. destruct (step s c) as [s1 e]. simpl.
  by destruct (run s1 cs) as [s2 es].
Qed.



Lemma run_latch_stays_set s cs :
  is_Some (Error s) -> is_Some (Error (run s cs).1).
Proof.
  revert s. induction cs as [|c cs IH]; intros s Hs; [done|].
  rewrite run_step. cbn [fst]. apply IH. rewrite step_latch.
  by destruct ((step s c).2).
Qed.

Lemma run_clean_iff s cs :
  Error s = None ->
  (Error (run s cs).1 = None <-> Forall (eq None) (run s cs).2).
Proof.
  revert s. induction cs as [|c cs IH]; intros s Hs; [by split|].
  rewrite run_step. cbn [fst snd].
  pose proof (step_latch s c) as Hl.
  destruct ((step s c).2) as [x|] eqn:Hc.
  - split.
    + intros Hnone. exfalso.
      destruct (run_latch_stays_set (step s c).1 cs) as [y Hy]; [by eexists|].
      congruence.
    + intros Hall. by inversion Hall.
  - rewrite Hs in Hl. destruct (IH _ Hl) as [IH1 IH2]. split.
    + intros Hnone. constructor; [done|by apply IH1].
    + intros Hall. inversion Hall; subst. by apply IH2.
Qed.

(** On a session made by [New], [Error()] is nil exactly when every
    [Send] and [Recv] so far returned nil: a handler can tell a clean
    end of stream from a failure by [Error()] alone. *)
Theorem new_session_clean_iff service endpoint (req : value) (st : St) cs :
  Error (run (New NewRequest service endpoint req st) cs).1 = None
  <-> Forall (eq None) (run (New NewRequest service endpoint req st) cs).2.
Proof. by apply run_clean_iff. Qed.

(** The request view is a snapshot: no [Send] or [Recv] changes it, and
    on a session made by [New] its header is the metadata of the context
    the stream had at creation, however the stream has moved on since. *)
Theorem request_view_is_snapshot s cs service endpoint (req : value) (st : St) :
  Request (run s cs).1 = Request s
  /\ Header metadata_FromContext
       (Request (run (New NewRequest service endpoint req st) cs).1)
     = (metadata_FromContext (Context st)).1.
Proof.
  assert (Hgen : forall s', Request (run s' cs).1 = Request s').
  { induction cs as [|c cs IH]; intros s'; [done|].
    rewrite run_step. cbn [fst]. rewrite IH. apply step_request. }
  split; [apply Hgen|]. by rewrite Hgen.
Qed.

End Facts.

End stream_view_facts.

(** ** The reverse-proxy handler, every outcome *)

Module http_outcome_facts.
Import http.

Section Facts.
Context {error Request Service URL : Type}.
Variable errors_New : string -> error.
Variable selector_Random : list Service -> @Next error.
Variable url_Parse : string -> URL + error.

Implicit Types (h : httpHandler error Request Service) (r : Request).


(** [getService] never returns a service together with an error: with
    an error the service is empty, and a non-empty service is
    ["http://"] followed by the address of the node the selector gave. *)
Theorem getService_shape h r :
  ((getService errors_New selector_Random h r).2 <> None ->
     (getService errors_New selector_Random h r).1 = "")
  /\ ((getService errors_New selector_Random h r).1 <> "" ->
        (getService errors_New selector_Random h r).2 = None
        /\ exists rt route n,
             Router_ (options h) = Some rt
             /\ Route_ rt r = inl route
             /\ selector_Random (Versions route) tt = inl n
             /\ (getService errors_New selector_Random h r).1
                  = "http://" +:+ Address n).
Proof.
  unfold getService.
  destruct (Router_ (options h)) as [rt|]; [|by split].
  destruct (Route_ rt r) as [route|e] eqn:Hroute; [|by split].
  destruct (selector_Random (Versions route) tt) as [n|e] eqn:Hn; [|by split].
  simpl. split; [done|]. intros _. split; [done|]. by exists rt, route, n.
Qed.



End Facts.

End http_outcome_facts.

(** ** The codecs: outcomes and round trips *)

Module codec_facts.

Section Proto.
Context {error Message Other : Type}.
Variable ErrInvalidMessage : error.
Variable proto_Marshal : Message -> list Byte.byte * option error.
Variable proto_Unmarshal : list Byte.byte -> Message -> Message * option error.

Implicit Types (v tgt : proto.value Message Other) (buf : list Byte.byte).

(** [proto.Marshal] never returns bytes together with an error.  It
    either succeeds, which it does only for a protobuf message the
    library encoded and then with the library's bytes, or it fails and
    returns no bytes, whatever the library left in its buffer. *)
Theorem proto_Marshal_outcome v :
  (exists pb buf,
     v = proto.PB pb
     /\ proto_Marshal pb = (buf, None)
     /\ proto.Marshal ErrInvalidMessage proto_Marshal v = (buf, None))
  \/ (exists e, proto.Marshal ErrInvalidMessage proto_Marshal v = ([], Some e)).
Proof.
  unfold proto.Marshal. destruct v as [pb|o]; simpl.
  - destruct (proto_Marshal pb) as [buf [e|]] eqn:Hm.
    + right. by exists e.
    + left. by exists pb, buf.
  - right. by eexists.
Qed.

(** The proto codec is transparent: when the protobuf library decodes
    what it encoded, so does the codec.  Bytes that [Marshal] produced
    for [v], given to [Unmarshal] with any protobuf message as target,
    fill the target with [v] and return no error. *)
Theorem proto_round_trip v buf (tgt : Message) :
  (forall pb b t, proto_Marshal pb = (b, None) ->
                  proto_Unmarshal b t = (pb, None)) ->
  proto.Marshal ErrInvalidMessage proto_Marshal v = (buf, None) ->
  proto.Unmarshal (Other := Other) ErrInvalidMessage proto_Unmarshal buf (proto.PB tgt)
    = (v, None).
Proof.
  intros Hlib. unfold proto.Marshal, proto.Unmarshal.
  destruct v as [pb|o]; simpl; [|discriminate].
  destruct (proto_Marshal pb) as [b [e|]] eqn:Hm; [discriminate|].
  intros [= ->]. by rewrite (Hlib pb buf tgt Hm).
Qed.

End Proto.

Section Json.
Context {error Message Other : Type}.
Variable protojson_Marshal : Message -> list Byte.byte * option error.
Variable protojson_Unmarshal : list Byte.byte -> Message -> Message * option error.
Variable json_Marshal : proto.value Message Other -> list Byte.byte * option error.
Variable json_Unmarshal :
  list Byte.byte -> proto.value Message Other -> proto.value Message Other * option error.

Implicit Types (v tgt : proto.value Message Other) (buf : list Byte.byte).

(** The JSON codec pairs its libraries consistently: a value is decoded
    by the library that encoded it whenever the target is of the same
    kind as the value (both protobuf messages, or both not).  So if each
    library decodes what it encoded, [Unmarshal] after [Marshal] gives
    the value back. *)
Theorem json_round_trip v buf tgt :
  (forall pb b t, protojson_Marshal pb = (b, None) ->
                  protojson_Unmarshal b t = (pb, None)) ->
  (forall o b o', json_Marshal (proto.NotPB o) = (b, None) ->
                  json_Unmarshal b (proto.NotPB o') = (proto.NotPB o, None)) ->
  (is_Some (proto.assert_Message v) <-> is_Some (proto.assert_Message tgt)) ->
  json.Marshal protojson_Marshal json_Marshal v = (buf, None) ->
  json.Unmarshal protojson_Unmarshal json_Unmarshal buf tgt = (v, None).
Proof.
  intros Hpj Hj Hkind. unfold json.Marshal, json.Unmarshal.
  destruct v as [pb|o], tgt as [t|o']; simpl in *.
  - destruct (protojson_Marshal pb) as [b [e|]] eqn:Hm; [discriminate|].
    intros [= ->]. by rewrite (Hpj pb buf t Hm).
  - destruct Hkind as [Hk _]. destruct Hk as [? ?]; [by eexists|discriminate].
  - destruct Hkind as [_ Hk]. destruct Hk as [? ?]; [by eexists|discriminate].
  - intros Hm. by apply Hj.
Qed.

End Json.

Lemma scripted_proto_round_trip (pb b t : list Byte.byte) :
  scripted.proto_Marshal pb = (b, None) ->
  scripted.proto_Unmarshal b t = (pb, None).
Proof.
  unfold scripted.proto_Marshal, scripted.proto_Unmarshal.
  destruct (length pb <=? 4)%nat eqn:Hlen; [|discriminate].
  intros [= <-]. by rewrite Hlen.
Defined.

Lemma fixtures_json_round_trip (o : nat) (b : list Byte.byte) (o' : nat) :
  fixtures.json_Marshal (proto.NotPB o) = (b, None) ->
  fixtures.json_Unmarshal b (proto.NotPB o') = (proto.NotPB o, None).
Proof.
  simpl. intros [= <-]. by rewrite length_replicate.
Defined.

(** A two-byte message goes through the proto codec and comes back. *)
Lemma proto_round_trip_witness :
  proto.Unmarshal (Other := nat) scripted.ErrInvalidMessage scripted.proto_Unmarshal
    [Byte.x0a; Byte.x01] (proto.PB [])
  = (proto.PB [Byte.x0a; Byte.x01], None).
Proof.
  apply (proto_round_trip scripted.ErrInvalidMessage scripted.proto_Marshal
           scripted.proto_Unmarshal (proto.PB [Byte.x0a; Byte.x01])
           [Byte.x0a; Byte.x01] []).
  - exact scripted_proto_round_trip.
  - reflexivity.
Defined.

(** The number 3 goes through the JSON codec and comes back. *)
Lemma json_round_trip_witness :
  json.Unmarshal scripted.proto_Unmarshal fixtures.json_Unmarshal
    [Byte.x00; Byte.x00; Byte.x00] (proto.NotPB 0%nat)
  = (proto.NotPB 3%nat, None).
Proof.
  apply (json_round_trip scripted.proto_Marshal scripted.proto_Unmarshal
           fixtures.json_Marshal fixtures.json_Unmarshal).
  - exact scripted_proto_round_trip.
  - exact fixtures_json_round_trip.
  - split; intros [? ?]; discriminate.
  - reflexivity.
Defined.

End codec_facts.

(** ** The web service: handlers and the registered service *)

Module web_facts.
Import web.

Section Facts.
Context {error Registry Ctx W Mux Handler HandlerFunc : Type}.
Context `{!World error Registry W}.
Variable net_SplitHostPort : string -> string * string * option error.
Variable maddr_Extract : string -> string * option error.
Variable net_JoinHostPort : string -> string -> string.
Variable backoff_Do : Z -> Z.
Variable mux_Handle : Mux -> string -> Handler -> option Mux.
Variable mux_HandleFunc : Mux -> string -> HandlerFunc -> option Mux.

Implicit Types (s : service error Registry Ctx W Mux) (w : W)
  (sv : registry.Service) (eps : list registry.Endpoint).

Lemma seen_iff eps (pattern : string) :
  seen eps pattern = true <-> pattern ∈ map registry.Endpoint_Name eps.
Proof.
  unfold seen. induction eps as [|ep eps IH]; simpl.
  - split; [discriminate|]. intros H0. by apply elem_of_nil in H0.
  - rewrite orb_true_iff, IH, String.eqb_eq, elem_of_cons. split.
    + intros [<-|Hin]; [by left|by right].
    + intros [->|Hin]; [by left|by right].
Qed.

(** What [note_pattern] does to the endpoints. *)
Lemma note_pattern_endpoints s sv (pattern : string) :
  let sv' := (note_pattern s sv pattern).1 in
  pattern ∈ map registry.Endpoint_Name (registry.Service_Endpoints sv')
  /\ (registry.Service_Endpoints sv' = registry.Service_Endpoints sv
      \/ ((pattern ∉ map registry.Endpoint_Name (registry.Service_Endpoints sv))
          /\ registry.Service_Endpoints sv'
             = registry.Service_Endpoints sv ++ [registry.mk_Endpoint pattern]))
  /\ (NoDup (map registry.Endpoint_Name (registry.Service_Endpoints sv)) ->
      NoDup (map registry.Endpoint_Name (registry.Service_Endpoints sv')))
  /\ registry.Service_Nodes sv' = registry.Service_Nodes sv
  /\ registry.Service_Name sv' = registry.Service_Name sv
  /\ registry.Service_Version sv' = registry.Service_Version sv.
Proof.
  unfold note_pattern. cbn [fst].
  destruct (seen (registry.Service_Endpoints sv) pattern) eqn:Hseen.
  - apply seen_iff in Hseen. repeat split; auto.
  - assert (Hnot : pattern ∉ map registry.Endpoint_Name (registry.Service_Endpoints sv)).
    { intros Hin. apply seen_iff in Hin. congruence. }
    simpl. rewrite map_app. simpl. repeat split; auto.
    + apply elem_of_app. right. by apply list_elem_of_singleton.
    + intros Hnd. apply NoDup_app. split; [done|]. split.
      * intros x Hx Hx'. apply list_elem_of_singleton in Hx'. by subst.
      * apply NoDup_singleton.
Qed.

(** [Handle] keeps the endpoint list of the registered service a list
    without repeated names: after it returns, the pattern is among the
    endpoints; the old endpoints are still there, in place, followed by
    at most one new one, which is added only if the pattern was not yet
    there; nodes, name and version are untouched. *)
Theorem Handle_endpoints s (pattern : string) (handler : Handler) s' :
  Handle mux_Handle s pattern handler = Some s' ->
  exists sv sv',
    srv s = Some sv /\ srv s' = Some sv'
    /\ pattern ∈ map registry.Endpoint_Name (registry.Service_Endpoints sv')
    /\ (registry.Service_Endpoints sv' = registry.Service_Endpoints sv
        \/ ((pattern ∉ map registry.Endpoint_Name (registry.Service_Endpoints sv))
            /\ registry.Service_Endpoints sv'
               = registry.Service_Endpoints sv ++ [registry.mk_Endpoint pattern]))
    /\ (NoDup (map registry.Endpoint_Name (registry.Service_Endpoints sv)) ->
        NoDup (map registry.Endpoint_Name (registry.Service_Endpoints sv')))
    /\ registry.Service_Nodes sv' = registry.Service_Nodes sv
    /\ registry.Service_Name sv' = registry.Service_Name sv
    /\ registry.Service_Version sv' = registry.Service_Version sv.
Proof.
  unfold Handle. destruct (srv s) as [sv|] eqn:Hsrv; [|discriminate].
  pose proof (note_pattern_endpoints s sv pattern) as Hnp.
  destruct (note_pattern s sv pattern) as [sv' st'].
  destruct (mux_Handle (mux s) pattern handler) as [m|]; [|discriminate].
  intros [= <-]. exists sv, sv'. simpl. split; [done|]. split; [done|]. exact Hnp.
Qed.

(** Static file serving can be switched off by a handler and never
    switched on: after [Handle] it is on exactly when it was on before
    and the pattern is not ["/"].  Options and the running flag are
    untouched, and the mux has been given the pattern. *)
Theorem Handle_static s (pattern : string) (handler : Handler) s' :
  Handle mux_Handle s pattern handler = Some s' ->
  (static s' = true <-> static s = true /\ pattern <> "/")
  /\ opts s' = opts s
  /\ running s' = running s
  /\ mux_Handle (mux s) pattern handler = Some (mux s').
Proof.
  unfold Handle. destruct (srv s) as [sv|]; [|discriminate].
  unfold note_pattern.
  destruct (mux_Handle (mux s) pattern handler) as [m|]; [|discriminate].
  intros [= <-]. simpl. split; [|done].
  destruct (String.eqb pattern "/") eqn:Hp.
  - apply String.eqb_eq in Hp. split; [discriminate|]. by intros [_ Hne].
  - apply String.eqb_neq in Hp. split; [by intros ->|]. by intros [-> _].
Qed.

(** [HandleFunc] treats the registered service and the static flag the
    way [Handle] does: from the same service and for the same pattern
    they leave the same endpoints, static flag, options and running
    flag; they differ in what they hand to the mux only. *)
Theorem HandleFunc_like_Handle s (pattern : string)
    (handler : Handler) (f : HandlerFunc) s1 s2 :
  Handle mux_Handle s pattern handler = Some s1 ->
  HandleFunc mux_HandleFunc s pattern f = Some s2 ->
  srv s2 = srv s1 /\ static s2 = static s1
  /\ opts s2 = opts s1 /\ running s2 = running s1
  /\ mux_HandleFunc (mux s) pattern f = Some (mux s2).
Proof.
  unfold Handle, HandleFunc. destruct (srv s) as [sv|]; [|discriminate].
  destruct (note_pattern s sv pattern) as [sv' st'].
  destruct (mux_Handle (mux s) pattern handler) as [m1|]; [|discriminate].
  destruct (mux_HandleFunc (mux s) pattern f) as [m2|]; [|discriminate].
  by intros [= <-] [= <-].
Qed.

(** When an advertise address is set, the listen address has no part in
    the registered service: two services that agree on every option but
    [Address] generate the same [registry.Service], which has no
    endpoints and exactly one node, carrying the service's id and
    metadata. *)
Theorem genSrv_advertise_overrides s s' w w' :
  (0 < String.length (Advertise (opts s)))%nat ->
  Advertise (opts s') = Advertise (opts s) ->
  Name (opts s') = Name (opts s) ->
  Version (opts s') = Version (opts s) ->
  Id (opts s') = Id (opts s) ->
  Metadata (opts s') = Metadata (opts s) ->
  (genSrv net_SplitHostPort maddr_Extract net_JoinHostPort s' w').1
    = (genSrv net_SplitHostPort maddr_Extract net_JoinHostPort s w).1
  /\ registry.Service_Endpoints
       (genSrv net_SplitHostPort maddr_Extract net_JoinHostPort s w).1 = []
  /\ exists address,
       registry.Service_Nodes
         (genSrv net_SplitHostPort maddr_Extract net_JoinHostPort s w).1
       = [ registry.mk_Node (Id (opts s)) address (Metadata (opts s)) ].
Proof.
  intros Hadv Ha Hn Hv Hi Hm. unfold genSrv. rewrite Ha, Hn, Hv, Hi, Hm.
  apply Nat.ltb_lt in Hadv. rewrite Hadv.
  destruct (0 <? String.length (Address (opts s)))%nat;
    destruct (0 <? String.length (Address (opts s')))%nat;
    repeat match goal with
      | |- context [net_SplitHostPort ?a] =>
          destruct (net_SplitHostPort a) as [[? ?] ?]
      end;
    destruct (maddr_Extract _) as [addr err]; simpl;
    (split; [done|]; split; [done|]; by eexists).
Qed.

(** [register] does not reach the registry when there is nothing to
    register or when the register check fails.  Without a generated
    service it does nothing at all.  When the check fails, [register]
    returns the check's error, and all that happened after the check is
    one log line. *)
Theorem register_guards s w :
  (srv s = None ->
     register net_SplitHostPort maddr_Extract net_JoinHostPort backoff_Do s w
       = (s, w, None))
  /\ (forall old w2 e,
        srv s = Some old ->
        RegisterCheck (opts s) (Context_ (opts s))
          (genSrv net_SplitHostPort maddr_Extract net_JoinHostPort s w).2
          = (w2, Some e) ->
        (register net_SplitHostPort maddr_Extract net_JoinHostPort backoff_Do s w).1.2
          = Log ErrorLevel (LogRegisterCheck (Name (opts s)) (Id (opts s)) e) w2
        /\ (register net_SplitHostPort maddr_Extract net_JoinHostPort backoff_Do s w).2
          = Some e).
Proof.
  unfold register. split.
  - by intros ->.
  - intros old w2 e -> Hcheck.
    destruct (genSrv net_SplitHostPort maddr_Extract net_JoinHostPort s w) as [sv w1].
    simpl in *. by rewrite Hcheck.
Qed.

(** [register] regenerates the registered service and keeps its
    endpoints: whatever the check and the registry answer, afterwards
    the service holds the freshly generated node with the endpoints it
    had before, and mux, options, running and static flags are as they
    were. *)
Theorem register_keeps_endpoints s w old :
  srv s = Some old ->
  let s' := (register net_SplitHostPort maddr_Extract net_JoinHostPort backoff_Do s w).1.1 in
  srv s' = Some (registry.set_Endpoints
                   (genSrv net_SplitHostPort maddr_Extract net_JoinHostPort s w).1
                   (registry.Service_Endpoints old))
  /\ mux s' = mux s /\ opts s' = opts s
  /\ running s' = running s /\ static s' = static s.
Proof.
  intros Hsrv. unfold register. rewrite Hsrv.
  destruct (genSrv net_SplitHostPort maddr_Extract net_JoinHostPort s w) as [sv w1].
  cbn [opts set_srv].
  destruct (RegisterCheck (opts s) (Context_ (opts s)) w1) as [w2 [e|]]; [done|].
  by destruct (register_loop backoff_Do 3 0 _ _ _ None w2) as [w3 regErr].
Qed.

End Facts.

Section Traced.
Context {Ctx Mux : Type}.
Variable net_SplitHostPort : string -> string * string * option string.
Variable maddr_Extract : string -> string * option string.
Variable net_JoinHostPort : string -> string -> string.
Variable backoff_Do : Z -> Z.

Implicit Types (s : service string string Ctx traced.world Mux) (w : traced.world).

(** The registration protocol, seen from the registry and the clock.
    Once the register check has passed, [register] makes between one
    and three [Register] calls, all to the same registry with the same
    service and TTL; it stops at the first that succeeds and returns
    nil, and after three failures it returns the third error.  Every
    failed attempt, the last one too, is followed by a sleep of
    [backoff.Do(i + 1)] for attempt [i]. *)
Theorem register_protocol s old w w2 :
  srv s = Some old ->
  RegisterCheck (opts s) (Context_ (opts s))
    (genSrv net_SplitHostPort maddr_Extract net_JoinHostPort s w).2 = (w2, None) ->
  let sv := registry.set_Endpoints
              (genSrv net_SplitHostPort maddr_Extract net_JoinHostPort s w).1
              (registry.Service_Endpoints old) in
  let attempt := traced.EvRegister (registry_of s) sv (RegisterTTL (opts s)) in
  exists fails : list string,
    (length fails <= 3)%nat
    /\ traced.trace
         (register net_SplitHostPort maddr_Extract net_JoinHostPort backoff_Do s w).1.2
       = traced.trace w2
         ++ concat (imap (fun i e => [attempt (Some e);
                                      traced.EvSleep (backoff_Do (Z.of_nat i + 1))])
                         fails)
         ++ (if (length fails <? 3)%nat then [attempt None] else [])
    /\ (register net_SplitHostPort maddr_Extract net_JoinHostPort backoff_Do s w).2
       = if (length fails <? 3)%nat then None else last fails.
Proof.
  intros Hsrv Hcheck. unfold register. rewrite Hsrv.
  destruct (genSrv net_SplitHostPort maddr_Extract net_JoinHostPort s w) as [sv0 w1].
  cbn [fst snd opts set_srv] in *. rewrite Hcheck.
  destruct w2 as [ans tr].
  destruct ans as [|[e1|] [|[e2|] [|[e3|] rest]]].
  all: first
    [ exists [e1; e2; e3]
    | exists [e1; e2]
    | exists [e1]
    | exists [] ];
    (split; [simpl; lia|]);
    cbn; rewrite <- ?app_assoc; done.
Qed.

(** [deregister] after a successful [register] takes back what was
    registered: the registry and the service of its one [Deregister]
    call are those of the [Register] call that succeeded. *)
Theorem deregister_targets_registered s w s' w' :
  srv s <> None ->
  register net_SplitHostPort maddr_Extract net_JoinHostPort backoff_Do s w
    = (s', w', None) ->
  exists r sv ttl evs,
    traced.trace w' = evs ++ [traced.EvRegister r sv ttl None]
    /\ traced.trace (deregister s' w').1
       = traced.trace w' ++ [traced.EvDeregister r sv (deregister s' w').2].
Proof.
  intros Hsrv. unfold register.
  destruct (srv s) as [old|] eqn:Hold; [|done].
  destruct (genSrv net_SplitHostPort maddr_Extract net_JoinHostPort s w) as [sv0 w1].
  cbn [opts set_srv].
  destruct (RegisterCheck (opts s) (Context_ (opts s)) w1) as [w2 [e|]]; [discriminate|].
  destruct w2 as [ans tr].
  destruct ans as [|[e1|] [|[e2|] [|[e3|] rest]]]; cbn;
    intros Heq; try discriminate; injection Heq as <- <-.
  all: eexists _, _, _, _; split; [reflexivity|];
    unfold deregister, registry_of; cbn; unfold traced.answer; cbn;
    try match goal with |- context [match ?l with [] => _ | _ :: _ => _ end] =>
      destruct l end; reflexivity.
Qed.

End Traced.

(** Handling ["/"] on a service that has the endpoint [/health]. *)
Lemma Handle_endpoints_witness :
  exists sv sv',
    srv traced.service0 = Some sv /\ srv traced.service_root = Some sv'
    /\ "/" ∈ map registry.Endpoint_Name (registry.Service_Endpoints sv')
    /\ (registry.Service_Endpoints sv' = registry.Service_Endpoints sv
        \/ ((("/" : string) ∉ map registry.Endpoint_Name (registry.Service_Endpoints sv))
            /\ registry.Service_Endpoints sv'
               = registry.Service_Endpoints sv ++ [registry.mk_Endpoint "/"]))
    /\ (NoDup (map registry.Endpoint_Name (registry.Service_Endpoints sv)) ->
        NoDup (map registry.Endpoint_Name (registry.Service_Endpoints sv')))
    /\ registry.Service_Nodes sv' = registry.Service_Nodes sv
    /\ registry.Service_Name sv' = registry.Service_Name sv
    /\ registry.Service_Version sv' = registry.Service_Version sv.
Proof.
  apply (Handle_endpoints traced.mux_Handle traced.service0 "/" 0%nat traced.service_root).
  vm_compute. reflexivity.
Defined.

Lemma Handle_static_witness :
  (static traced.service_root = true <-> static traced.service0 = true /\ "/" <> "/")
  /\ opts traced.service_root = opts traced.service0
  /\ running traced.service_root = running traced.service0
  /\ traced.mux_Handle (mux traced.service0) "/" 0%nat = Some (mux traced.service_root).
Proof.
  apply (Handle_static traced.mux_Handle traced.service0 "/" 0%nat traced.service_root).
  vm_compute. reflexivity.
Defined.

Lemma HandleFunc_like_Handle_witness :
  srv traced.service_root = srv traced.service_root
  /\ static traced.service_root = static traced.service_root
  /\ opts traced.service_root = opts traced.service_root
  /\ running traced.service_root = running traced.service_root
  /\ traced.mux_Handle (mux traced.service0) "/" 1%nat = Some (mux traced.service_root).
Proof.
  apply (HandleFunc_like_Handle traced.mux_Handle traced.mux_Handle
           traced.service0 "/" 0%nat 1%nat traced.service_root traced.service_root).
  - vm_compute. reflexivity.
  - vm_compute. reflexivity.
Defined.

(** A service advertised at 10.0.0.7:9090 registers that address,
    whether it listens on :8080 or on an address that does not parse. *)
Lemma genSrv_advertise_overrides_witness :
  let s := mk_service ["/"] None (traced.options ":8080" "10.0.0.7:9090") false true in
  let s' := mk_service ["/"] None (traced.options "nonsense" "10.0.0.7:9090") false true in
  (traced.genSrv s' traced.flaky).1 = (traced.genSrv s traced.flaky).1
  /\ registry.Service_Endpoints (traced.genSrv s traced.flaky).1 = []
  /\ exists address,
       registry.Service_Nodes (traced.genSrv s traced.flaky).1
       = [ registry.mk_Node "greeter-1" address ∅ ].
Proof.
  intros s s'.
  apply (genSrv_advertise_overrides traced.net_SplitHostPort traced.maddr_Extract
           traced.net_JoinHostPort s s' traced.flaky traced.flaky);
    [vm_compute; lia | reflexivity ..].
Defined.

Lemma register_keeps_endpoints_witness :
  let s' := (traced.register traced.service0 traced.flaky).1.1 in
  srv s' = Some (registry.set_Endpoints (traced.genSrv traced.service0 traced.flaky).1
                   [registry.mk_Endpoint "/health"])
  /\ mux s' = mux traced.service0 /\ opts s' = opts traced.service0
  /\ running s' = running traced.service0 /\ static s' = static traced.service0.
Proof.
  apply (register_keeps_endpoints traced.net_SplitHostPort traced.maddr_Extract
           traced.net_JoinHostPort traced.backoff_Do traced.service0 traced.flaky
           {| registry.Service_Name := "greeter";
              registry.Service_Version := "latest";
              registry.Service_Metadata := ∅;
              registry.Service_Endpoints := [registry.mk_Endpoint "/health"];
              registry.Service_Nodes := [] |}).
  reflexivity.
Defined.

(** Against a registry that fails once, [register] registers twice and
    sleeps once in between. *)
Lemma register_protocol_witness :
  let attempt := traced.EvRegister "mdns" traced.srv0 30 in
  exists fails : list string,
    (length fails <= 3)%nat
    /\ traced.trace (traced.register traced.service0 traced.flaky).1.2
       = [] ++ concat (imap (fun i e => [attempt (Some e);
                                         traced.EvSleep (traced.backoff_Do (Z.of_nat i + 1))])
                            fails)
         ++ (if (length fails <? 3)%nat then [attempt None] else [])
    /\ (traced.register traced.service0 traced.flaky).2
       = if (length fails <? 3)%nat then None else last fails.
Proof.
  apply (register_protocol traced.net_SplitHostPort traced.maddr_Extract
           traced.net_JoinHostPort traced.backoff_Do traced.service0
           {| registry.Service_Name := "greeter";
              registry.Service_Version := "latest";
              registry.Service_Metadata := ∅;
              registry.Service_Endpoints := [registry.mk_Endpoint "/health"];
              registry.Service_Nodes := [] |}
           traced.flaky traced.flaky).
  - reflexivity.
  - reflexivity.
Defined.

Lemma deregister_targets_registered_witness :
  let w' := (traced.register traced.service0 traced.flaky).1.2 in
  let s' := (traced.register traced.service0 traced.flaky).1.1 in
  exists r sv ttl evs,
    traced.trace w' = evs ++ [traced.EvRegister r sv ttl None]
    /\ traced.trace (deregister s' w').1
       = traced.trace w' ++ [traced.EvDeregister r sv (deregister s' w').2].
Proof.
  apply (deregister_targets_registered traced.net_SplitHostPort traced.maddr_Extract
           traced.net_JoinHostPort traced.backoff_Do traced.service0 traced.flaky).
  - discriminate.
  - reflexivity.
Defined.

End web_facts.

(** ** The http-rpc handler *)

Module api_handler_facts.
Import api_handler.

Section Facts.
Context {error Request Proto ClientRequest CallContext Service Strategy C : Type}.
Variable canon : string -> string.
Variable DefaultMaxRecvSize : Z.
Variable MaxBytesReader : Request -> Z -> Request.
Variable requestToProto : Request -> Proto + error.
Variable error_string : error -> string.
Variable errors_InternalServerError : string -> string -> Error.
Variable errors_Parse : string -> Error.
Variable Error_string : Error -> string.
Variable ctx_FromRequest : Request -> CallContext.
Variable strategy : list Service -> Strategy.
Variable NewRequest : string -> string -> Proto -> ClientRequest.
Variable Call : C -> CallContext -> ClientRequest -> Strategy -> C * Response * option error.

Let Serve := ServeHTTP canon DefaultMaxRecvSize MaxBytesReader requestToProto
  error_string errors_InternalServerError errors_Parse Error_string
  ctx_FromRequest strategy NewRequest Call.

Implicit Types (a : apiHandler error Request Service)
  (w : nethttp.ResponseWriter) (r : Request) (c : C).

Lemma Get_Set (h : gmap string (list string)) (key value : string) :
  nethttp.Header_Get canon (nethttp.Header_Set canon h key value) key = value.
Proof. unfold nethttp.Header_Get, nethttp.Header_Set. by rewrite lookup_insert_eq. Qed.

Lemma header_WriteHeader w code :
  nethttp.header (nethttp.WriteHeader w code) = nethttp.header w.
Proof. unfold nethttp.WriteHeader. by destruct (nethttp.status w). Qed.


Lemma status_WriteHeader_fresh w code :
  nethttp.status w = None ->
  nethttp.status (nethttp.WriteHeader w code) = Some code.
Proof. unfold nethttp.WriteHeader. by intros ->. Qed.

Lemma internal_error_content_type w msg :
  nethttp.Header_Get canon
    (nethttp.header (internal_error canon errors_InternalServerError Error_string w msg))
    "Content-Type" = "application/json".
Proof.
  unfold internal_error. simpl. rewrite header_WriteHeader. simpl. apply Get_Set.
Qed.



(** A request that cannot be turned into a call never reaches the
    client.  When the request does not convert, when there is no
    router, or when the router finds no route, the client is left as it
    was and the answer is 500 with an [application/json] error body. *)
Theorem unroutable_request_skips_client a w r c :
  let r' := MaxBytesReader r (if 0 <? MaxRecvSize (opts a) then MaxRecvSize (opts a)
                              else DefaultMaxRecvSize) in
  ((exists err, requestToProto r' = inr err)
   \/ Router (opts a) = None
   \/ (exists route err, Router (opts a) = Some route /\ route r' = inr err)) ->
  nethttp.status w = None ->
  exists w',
    Serve a w r c = Some (w', c)
    /\ nethttp.status w' = Some nethttp.StatusInternalServerError
    /\ nethttp.Header_Get canon (nethttp.header w') "Content-Type" = "application/json".
Proof.
  intros r' Hcase Hfresh. unfold Serve, ServeHTTP. fold r'.
  assert (Hie : forall msg,
            nethttp.status (internal_error canon errors_InternalServerError
                              Error_string w msg)
              = Some nethttp.StatusInternalServerError).
  { intros msg. unfold internal_error. simpl. by apply status_WriteHeader_fresh. }
  destruct (requestToProto r') as [request|err] eqn:Hreq.
  - destruct Hcase as [[err Herr]|[Hnone|(route & err & Hrt & Herr)]]; [discriminate| |].
    + rewrite Hnone. eexists. split; [reflexivity|].
      split; [apply Hie|apply internal_error_content_type].
    + rewrite Hrt, Herr. eexists. split; [reflexivity|].
      split; [apply Hie|apply internal_error_content_type].
  - eexists. split; [reflexivity|].
    split; [apply Hie|apply internal_error_content_type].
Qed.

End Facts.



(** A path the router does not know: 500, and the client has made no call. *)
Lemma unroutable_request_skips_client_witness :
  exists w',
    api_fixtures.ServeHTTP api_fixtures.handler api_fixtures.fresh "/unknown" 0%nat
      = Some (w', 0%nat)
    /\ nethttp.status w' = Some 500
    /\ nethttp.Header_Get api_fixtures.canon (nethttp.header w') "Content-Type"
       = "application/json".
Proof.
  apply (unroutable_request_skips_client api_fixtures.canon 4194304 (fun r _ => r)
           api_fixtures.requestToProto (fun e => e)
           api_fixtures.errors_InternalServerError api_fixtures.errors_Parse
           api_fixtures.Error_string (fun r => r) (fun _ : list unit => tt)
           (fun service endpoint request => (service, endpoint, request))
           api_fixtures.Call api_fixtures.handler api_fixtures.fresh "/unknown" 0%nat).
  - right. right. exists api_fixtures.route, "route not found". split; reflexivity.
  - reflexivity.
Defined.

End api_handler_facts.

(** ** Reading pod logs *)

Module kubernetes_facts.
Import kubernetes.

Section Facts.
Context {error Body K : Type} `{HC : !Client error Body K}.
Variable client_Format : string -> string.

Implicit Types (k : klog) (st : K) (p : Pod).



End Facts.

Section Recorded.
Variable value : Value.
Variable get_err : option string.
Variable logs : string -> list string + string.
Variable client_Format : string -> string.
Variable strconv_Itoa : Z -> string.

Let C := kube.client value get_err logs.
Let scan := fun body : list string => body.

Implicit Types (k : klog) (st : list kube.event).

Lemma read_pods_all_ok k (pods : list string) (bodies : list (list string)) :
  Forall2 (fun pod body => logs pod = inl body) pods bodies ->
  forall st opened records,
    read_pods (HC := C) strconv_Itoa scan k pods st opened records
    = (st ++ map (fun pod => kube.EvLog pod "pod" (logParams strconv_Itoa (options k))
                               (Namespace (options k))) pods,
       rev bodies ++ opened,
       records ++ map mk_LogRecord (concat bodies),
       None).
Proof.
  induction 1 as [|pod body pods bodies Hlog Hrest IH]; intros st opened records.
  - simpl. by rewrite !app_nil_r.
  - cbn [read_pods]. unfold Log, C, kube.client. simpl. rewrite Hlog.
    fold C. rewrite IH. unfold scan. simpl.
    by rewrite map_app, <- !app_assoc.
Qed.

Lemma read_pods_first_failure k (oks : list string) (bodies : list (list string))
    (bad : string) (rest : list string) (e : string) :
  Forall2 (fun pod body => logs pod = inl body) oks bodies ->
  logs bad = inr e ->
  forall st opened records,
    read_pods (HC := C) strconv_Itoa scan k (oks ++ bad :: rest) st opened records
    = (st ++ map (fun pod => kube.EvLog pod "pod" (logParams strconv_Itoa (options k))
                               (Namespace (options k))) (oks ++ [bad]),
       rev bodies ++ opened,
       [],
       Some e).
Proof.
  intros Hoks Hbad.
  induction Hoks as [|pod body pods bodies Hlog Hrest IH]; intros st opened records.
  - cbn. by rewrite Hbad.
  - cbn [read_pods app]. unfold Log, C, kube.client. simpl. rewrite Hlog.
    fold C. rewrite IH. simpl. by rewrite <- !app_assoc.
Qed.

Lemma close_all_trace (opened : list (list string)) st :
  close_all (HC := C) opened st = st ++ map kube.EvClose opened.
Proof.
  unfold close_all. revert st.
  induction opened as [|b opened IH]; intros st; simpl; [by rewrite app_nil_r|].
  rewrite IH. by rewrite <- app_assoc.
Qed.

(** When every matching pod serves its log, [Read] returns the lines of
    all of them, pod after pod in the order [getMatchingPods] gave, and
    no error.  It asks each pod once, with the same parameters and
    namespace, and before it returns it closes every body it opened,
    the latest first. *)
Theorem Read_collects_all k st st1 (pods : list string) (bodies : list (list string)) :
  getMatchingPods (HC := C) client_Format k st = Some (st1, pods, None) ->
  Forall2 (fun pod body => logs pod = inl body) pods bodies ->
  Read (HC := C) client_Format strconv_Itoa scan k st
  = Some (st1
          ++ map (fun pod => kube.EvLog pod "pod" (logParams strconv_Itoa (options k))
                               (Namespace (options k))) pods
          ++ map kube.EvClose (rev bodies),
          map mk_LogRecord (concat bodies),
          None).
Proof.
  intros Hpods Hall. unfold Read. rewrite Hpods.
  rewrite (read_pods_all_ok k pods bodies Hall). rewrite close_all_trace.
  by rewrite !app_nil_r, <- app_assoc.
Qed.

(** [Read] is all or nothing.  At the first pod whose log cannot be
    opened it stops: it returns that pod's error and no records, not
    even those already read from earlier pods; the pods after it are
    never asked; the bodies opened so far are closed, the latest first. *)
Theorem Read_stops_at_first_failure k st st1
    (oks : list string) (bodies : list (list string))
    (bad : string) (rest : list string) (e : string) :
  getMatchingPods (HC := C) client_Format k st = Some (st1, oks ++ bad :: rest, None) ->
  Forall2 (fun pod body => logs pod = inl body) oks bodies ->
  logs bad = inr e ->
  Read (HC := C) client_Format strconv_Itoa scan k st
  = Some (st1
          ++ map (fun pod => kube.EvLog pod "pod" (logParams strconv_Itoa (options k))
                               (Namespace (options k))) (oks ++ [bad])
          ++ map kube.EvClose (rev bodies),
          [],
          Some e).
Proof.
  intros Hpods Hoks Hbad. unfold Read. rewrite Hpods.
  rewrite (read_pods_first_failure k oks bodies bad rest e Hoks Hbad).
  rewrite close_all_trace. by rewrite !app_nil_r, <- app_assoc.
Qed.

End Recorded.


(** Both greeter pods serve their logs: three records, two bodies
    opened and closed. *)
Lemma Read_collects_all_witness :
  Read (HC := kube.client (PodList kube.pods) None kube.logs)
    (fun name => name) kube.Itoa (fun body => body) kube.greeter []
  = Some ([kube.EvGet {[ "name" := "greeter" ]} "default"]
          ++ map (fun pod => kube.EvLog pod "pod" {[ "tailLines" := "10" ]} "default")
                 ["greeter-1"; "greeter-2"]
          ++ map kube.EvClose (rev [ ["starting"; "listening"]; ["starting"] ]),
          map mk_LogRecord (concat [ ["starting"; "listening"]; ["starting"] ]),
          None).
Proof.
  apply (Read_collects_all (PodList kube.pods) None kube.logs (fun name => name)
           kube.Itoa kube.greeter []
           [kube.EvGet {[ "name" := "greeter" ]} "default"]
           ["greeter-1"; "greeter-2"]
           [ ["starting"; "listening"]; ["starting"] ]).
  - vm_compute. reflexivity.
  - repeat constructor.
Defined.

(** The second greeter pod refuses the connection: no records, the
    first pod's body is closed. *)
Lemma Read_stops_at_first_failure_witness :
  Read (HC := kube.client (PodList kube.pods) None kube.logs_broken)
    (fun name => name) kube.Itoa (fun body => body) kube.greeter []
  = Some ([kube.EvGet {[ "name" := "greeter" ]} "default"]
          ++ map (fun pod => kube.EvLog pod "pod" {[ "tailLines" := "10" ]} "default")
                 (["greeter-1"] ++ ["greeter-2"])
          ++ map kube.EvClose (rev [ ["starting"; "listening"] ]),
          [],
          Some "connection refused").
Proof.
  apply (Read_stops_at_first_failure (PodList kube.pods) None kube.logs_broken
           (fun name => name) kube.Itoa kube.greeter []
           [kube.EvGet {[ "name" := "greeter" ]} "default"]
           ["greeter-1"] [ ["starting"; "listening"] ] "greeter-2" []
           "connection refused").
  - vm_compute. reflexivity.
  - repeat constructor.
  - reflexivity.
Defined.

End kubernetes_facts.

(** ** The options of the api server *)

Module api_facts.
Import api.

Section Facts.
Context {error Router Client Registry : Type}.
Variable client_NewClient : Registry -> Client.
Variable registry_NewRouter : Registry -> Router.

Implicit Types (opts : list (Option error Router Client)).

Lemma NewOptions_snoc opts (o : Option error Router Client) :
  NewOptions (opts ++ [o]) = (o (NewOptions opts)).1.
Proof. unfold NewOptions. by rewrite fold_left_app. Qed.

(** Options are applied from left to right and the last one wins,
    whatever the options before it are and whatever errors they return:
    a final [WithAddress] fixes the address and leaves router and
    client alone, a final [WithRouter] fixes the router and leaves the
    address alone, and a final [WithRegistry] replaces both router and
    client by the ones made from the registry. *)
Theorem NewOptions_last_wins opts (addr : string) (r : option Router) (reg : Registry) :
  (Address (NewOptions (opts ++ [WithAddress addr])) = addr
   /\ Router_ (NewOptions (opts ++ [WithAddress addr])) = Router_ (NewOptions opts)
   /\ Client_ (NewOptions (opts ++ [WithAddress addr])) = Client_ (NewOptions opts))
  /\ (Router_ (NewOptions (opts ++ [WithRouter r])) = r
      /\ Address (NewOptions (opts ++ [WithRouter r])) = Address (NewOptions opts)
      /\ Client_ (NewOptions (opts ++ [WithRouter r])) = Client_ (NewOptions opts))
  /\ (Router_ (NewOptions (opts ++ [WithRegistry client_NewClient registry_NewRouter reg]))
        = Some (registry_NewRouter reg)
      /\ Client_ (NewOptions (opts ++ [WithRegistry client_NewClient registry_NewRouter reg]))
        = Some (client_NewClient reg)
      /\ Address (NewOptions (opts ++ [WithRegistry client_NewClient registry_NewRouter reg]))
        = Address (NewOptions opts)).
Proof. rewrite !NewOptions_snoc. simpl. done. Qed.

(** The address is [":8080"] unless an option sets it: any number of
    [WithRouter] and [WithRegistry] options leaves the default address. *)
Theorem NewOptions_default_address opts :
  Forall (fun o => (exists r, o = WithRouter r)
                   \/ (exists reg, o = WithRegistry client_NewClient registry_NewRouter reg))
         opts ->
  Address (NewOptions opts) = ":8080".
Proof.
  induction opts as [|o opts IH] using rev_ind; [done|].
  intros Hall. apply Forall_app in Hall as [Hopts Ho].
  rewrite NewOptions_snoc. inversion Ho as [|? ? Hlast _]; subst.
  destruct Hlast as [[r ->]|[reg ->]]; simpl; by apply IH.
Qed.

End Facts.

Lemma NewOptions_default_address_witness :
  Address (NewOptions (error := string)
             [WithRouter (Some "static");
              WithRegistry (fun r : string => r) (fun r : string => r) "mdns"])
    = ":8080".
Proof.
  apply (NewOptions_default_address (fun r : string => r) (fun r : string => r)).
  constructor; [left; by eexists|].
  constructor; [right; by eexists|].
  constructor.
Defined.

End api_facts.

(** ** The docker builder *)

Module docker_facts.
Import docker.

Section Facts.
Context {error File Tar D : Type}.
Variable filepath_Join : list string -> string.
Variable os_Open : string -> File + error.
Variable io_ReadAll : File -> list Byte.byte * option error.
Variable tar_NewWriter : Tar.
Variable tar_WriteHeader : Tar -> tar_Header -> Tar * option error.
Variable tar_Write : Tar -> list Byte.byte -> Tar * option error.
Variable buf_Bytes : Tar -> list Byte.byte.
Variable BuildImage : D -> BuildImageOptions -> D * option error.
Variable RemoveImage : D -> string -> D * option error.


Implicit Types (d : D) (s : Source).



End Facts.



End docker_facts.

(** ** The embedded code at work *)

Module runs.

(** The backoff doubles until it reaches the cap. *)
Example Do_doubles :
  map (backoff.Do 100 120000) [0; 1; 2; 3; 10; 11; 40]
    = [100; 200; 400; 800; 102400; 120000; 120000].
Proof. reflexivity. Qed.

(** A session whose calls all succeed has no error. *)
Example clean_session :
  stream.Error (stream.run (scripted.session [None; None])
                  [stream.CallSend 1%nat; stream.CallRecv 0%nat]).1 = None.
Proof. reflexivity. Qed.

(** The three answers of the reverse proxy: an unknown host is a
    router error (500), a host without nodes is 404, and a host with a
    node is proxied to that node's address. *)
Definition router_with_node : http.Router string string (list http.Node) :=
  {| http.Route_ := fun host =>
       inl {| http.Service_ := host;
              http.Versions := [ [ {| http.Id := "n1"; http.Address := "10.0.0.1:8080" |} ] ] |} |}.

Example ServeHTTP_unknown_host :
  http.ServeHTTP (fun s => s) scripted.selector_Random scripted.url_Parse
    scripted.handler "billing" = http.WriteHeader 500.
Proof. reflexivity. Qed.

Example ServeHTTP_proxies :
  http.ServeHTTP (fun s => s) scripted.selector_Random scripted.url_Parse
    {| http.options := {| http.Router_ := Some router_with_node |} |} "orders"
    = http.ReverseProxy "http://10.0.0.1:8080".
Proof. reflexivity. Qed.

Example ServeHTTP_no_router :
  http.ServeHTTP (fun s => s) scripted.selector_Random scripted.url_Parse
    {| http.options := {| http.Router_ := None |} |} "orders"
    = http.WriteHeader 500.
Proof. reflexivity. Qed.

(** Reading the topic of an event whose message pointer is nil panics. *)
Example Topic_nil_message :
  server.Topic (error := string) scripted.headers_Message
    {| server.err := None; server.message := None |} = None.
Proof. reflexivity. Qed.

End runs.
